(** * v0-byok: the chat provider of [src/provider.ts]

    A shallow embedding of [V0DevChatModelProvider]: the translation of host
    chat messages into OpenAI messages, the construction of the streaming
    request, the loop that reassembles streamed tool calls, and the error
    reporter of the [catch] block.

    Conventions of the embedding.
    - A JavaScript string is a [string]; each character stands for one code
      unit in the range 0..255.  String literals of the source that hold
      characters outside that range are carried as their UTF-8 bytes.
    - A JavaScript number that the code only compares is an integer ([Z]) when
      it counts things (token budgets, tool indices) and a rational ([Q]) when
      it is a temperature: [Math.min], [Math.max] and [||] only compare and
      select, they never round.
    - A tool index is an integer that a Number holds; as a property key of
      [toolCallsInProgress] it is the string [ToString] gives for it, which
      [parseInt] reads back ([parseInt_key]).
    - [undefined]/[null]/absent is [None].
    - [progress.report] appends to a list of fragments; a [throw] is the left
      summand of the result of a computation. *)

From Stdlib Require Import List String Ascii ZArith QArith Qminmax Bool Lia.
From Stdlib Require Import Permutation Sorted.
Import ListNotations.

Set Warnings "-register-all".

Local Close Scope Q_scope.
Local Open Scope string_scope.

(* ================================================================== *)
(** ** JavaScript string primitives used by the provider *)

Module JS.

(** [!!s] for a string: the empty string is falsy. *)
Definition truthy (s : string) : bool :=
  match s with EmptyString => false | String _ _ => true end.

(** [if (x)] for an optional string property: absent and [''] are falsy. *)
Definition truthy_opt (o : option string) : bool :=
  match o with Some s => truthy s | None => false end.

(** [WhiteSpace] and [LineTerminator] code units below 256:
    TAB, LF, VT, FF, CR, SP and NBSP. *)
Definition is_white_space (c : ascii) : bool :=
  let n := nat_of_ascii c in
  (Nat.eqb n 9 || Nat.eqb n 10 || Nat.eqb n 11 || Nat.eqb n 12
   || Nat.eqb n 13 || Nat.eqb n 32 || Nat.eqb n 160)%bool.

Fixpoint trimStart (s : string) : string :=
  match s with
  | String c r => if is_white_space c then trimStart r else s
  | EmptyString => EmptyString
  end.

(** Drops the trailing white space: a character is kept when it is not
    white space or when something is kept after it. *)
Fixpoint trimEnd (s : string) : string :=
  match s with
  | EmptyString => EmptyString
  | String c r =>
      match trimEnd r with
      | EmptyString => if is_white_space c then EmptyString
                       else String c EmptyString
      | r' => String c r'
      end
  end.

(** [String.prototype.trim] *)
Definition trim (s : string) : string := trimEnd (trimStart s).

Fixpoint startsWith (p s : string) : bool :=
  match p, s with
  | EmptyString, _ => true
  | String a p', String b s' => (Ascii.eqb a b && startsWith p' s')%bool
  | String _ _, EmptyString => false
  end.

(** [s.includes(sub)] *)
Fixpoint includes (s sub : string) : bool :=
  (startsWith sub s
   || match s with
      | EmptyString => false
      | String _ r => includes r sub
      end)%bool.

(** [xs.join(sep)] *)
Fixpoint join (sep : string) (xs : list string) : string :=
  match xs with
  | [] => ""
  | [x] => x
  | x :: rest => x ++ sep ++ join sep rest
  end.

(** [a || b] on strings *)
Definition or_else (a b : string) : string := if truthy a then a else b.

(** The double quote, as a character and as a string. *)
Definition DQUOTE : ascii := ascii_of_nat 34.

Definition DQ : string := String DQUOTE EmptyString.

End JS.

(* ================================================================== *)
(** ** JSON values, and a reference [JSON.parse] / [JSON.stringify]

    The provider calls the host's [JSON.parse] and [JSON.stringify].  The
    provider's definitions below take both as parameters; this module gives
    the data type and one implementation of the two functions, following
    ECMA-404, on which the examples are run.  A number is kept as its
    lexeme. *)

Module JSON.

Inductive value : Type :=
| Null
| Bool (b : bool)
| Number (lexeme : string)
| Str (s : string)
| Array (items : list value)
| Object (members : list (string * value)).

Definition is_ws (c : ascii) : bool :=
  let n := nat_of_ascii c in
  (Nat.eqb n 32 || Nat.eqb n 9 || Nat.eqb n 10 || Nat.eqb n 13)%bool.

Fixpoint skip_ws (s : string) : string :=
  match s with
  | String c r => if is_ws c then skip_ws r else s
  | EmptyString => EmptyString
  end.

Definition is_digit (c : ascii) : bool :=
  let n := nat_of_ascii c in (Nat.leb 48 n && Nat.leb n 57)%bool.

Definition is_hex (c : ascii) : bool :=
  let n := nat_of_ascii c in
  (is_digit c || (Nat.leb 65 n && Nat.leb n 70)
   || (Nat.leb 97 n && Nat.leb n 102))%bool.

(** Splits off the longest prefix of digits. *)
Fixpoint digits (s : string) : string * string :=
  match s with
  | String c r =>
      if is_digit c then let (d, rest) := digits r in (String c d, rest)
      else (EmptyString, s)
  | EmptyString => (EmptyString, EmptyString)
  end.

(** number = [-] int [frac] [exp] *)
Definition parse_number (s : string) : option (string * string) :=
  let (sign, s1) :=
    match s with
    | String "-" r => ("-", r)
    | _ => ("", s)
    end in
  let (int, s2) := digits s1 in
  match int with
  | EmptyString => None
  | String "0" (String _ _) => None
  | _ =>
      let frac :=
        match s2 with
        | String "." r =>
            let (d, rest) := digits r in
            match d with
            | EmptyString => None
            | _ => Some ("." ++ d, rest)
            end
        | _ => Some ("", s2)
        end in
      match frac with
      | None => None
      | Some (f, s3) =>
          let finish (e : ascii) (r : string) :=
            let (esign, r1) :=
              match r with
              | String "+" r' => ("+", r')
              | String "-" r' => ("-", r')
              | _ => ("", r)
              end in
            let (d, rest) := digits r1 in
            match d with
            | EmptyString => None
            | _ => Some (sign ++ int ++ f ++ String e esign ++ d, rest)
            end in
          match s3 with
          | String "e" r => finish "e"%char r
          | String "E" r => finish "E"%char r
          | _ => Some (sign ++ int ++ f, s3)
          end
      end
  end.

Definition hex_val (c : ascii) : nat :=
  let n := nat_of_ascii c in
  if is_digit c then n - 48
  else if Nat.leb 97 n then n - 87 else n - 55.

(** The characters of a string after its opening quote, up to the closing
    quote.  An escape [\uXXXX] of a code unit above 255 is kept as
    written. *)
Fixpoint parse_chars (s : string) : option (string * string) :=
  match s with
  | EmptyString => None
  | String c r =>
      let cont (decoded : string) (k : option (string * string)) :=
        match k with
        | Some (t, rest) => Some (decoded ++ t, rest)
        | None => None
        end in
      let one (n : nat) := String (ascii_of_nat n) EmptyString in
      if Ascii.eqb c JS.DQUOTE then Some (EmptyString, r)
      else if Ascii.eqb c "\" then
        match r with
        | EmptyString => None
        | String e r1 =>
            if (Ascii.eqb e JS.DQUOTE || Ascii.eqb e "\" || Ascii.eqb e "/")%bool
            then cont (String e EmptyString) (parse_chars r1)
            else if Ascii.eqb e "b" then cont (one 8) (parse_chars r1)
            else if Ascii.eqb e "f" then cont (one 12) (parse_chars r1)
            else if Ascii.eqb e "n" then cont (one 10) (parse_chars r1)
            else if Ascii.eqb e "r" then cont (one 13) (parse_chars r1)
            else if Ascii.eqb e "t" then cont (one 9) (parse_chars r1)
            else if Ascii.eqb e "u" then
              match r1 with
              | String h1 (String h2 (String h3 (String h4 r2))) =>
                  if (is_hex h1 && is_hex h2 && is_hex h3 && is_hex h4)%bool
                  then
                    let hi := (hex_val h1 * 16 + hex_val h2)%nat in
                    let lo := (hex_val h3 * 16 + hex_val h4)%nat in
                    let decoded :=
                      if Nat.eqb hi 0 then one lo
                      else String "\" (String "u" (String h1 (String h2
                             (String h3 (String h4 EmptyString))))) in
                    cont decoded (parse_chars r2)
                  else None
              | _ => None
              end
            else None
        end
      else if Nat.ltb (nat_of_ascii c) 32 then None
      else cont (String c EmptyString) (parse_chars r)
  end.

Section Composite.
(** The parser of the values one nesting level down. *)
Variable parse_inner : string -> option (value * string).

(** After a first element: [ws , value]* [ws] [']'] *)
Fixpoint parse_elements (n : nat) (acc : list value) (s : string)
  : option (value * string) :=
  match n with
  | O => None
  | S n' =>
      match skip_ws s with
      | String "]" r => Some (Array (rev acc), r)
      | String "," r =>
          match parse_inner r with
          | Some (v, rest) => parse_elements n' (v :: acc) rest
          | None => None
          end
      | _ => None
      end
  end.

(** One member: [ws string ws : value] *)
Definition parse_member (s : string) : option ((string * value) * string) :=
  match skip_ws s with
  | String c r =>
      if Ascii.eqb c JS.DQUOTE then
        match parse_chars r with
        | Some (k, r1) =>
            match skip_ws r1 with
            | String ":" r2 =>
                match parse_inner r2 with
                | Some (v, rest) => Some ((k, v), rest)
                | None => None
                end
            | _ => None
            end
        | None => None
        end
      else None
  | EmptyString => None
  end.

Fixpoint parse_members (n : nat) (acc : list (string * value)) (s : string)
  : option (value * string) :=
  match n with
  | O => None
  | S n' =>
      match skip_ws s with
      | String "}" r => Some (Object (rev acc), r)
      | String "," r =>
          match parse_member r with
          | Some (m, rest) => parse_members n' (m :: acc) rest
          | None => None
          end
      | _ => None
      end
  end.
End Composite.

Definition literal (word : string) (v : value) (s : string)
  : option (value * string) :=
  if JS.startsWith word s
  then Some (v, substring (String.length word)
                          (String.length s - String.length word) s)
  else None.

(** value = ws (object | array | string | number | true | false | null);
    the fuel bounds the nesting depth. *)
Fixpoint parse_value (fuel : nat) (s : string) : option (value * string) :=
  match fuel with
  | O => None
  | S fuel' =>
      let s0 := skip_ws s in
      let width := S (String.length s0) in
      match s0 with
      | EmptyString => None
      | String c r =>
          if Ascii.eqb c "[" then
            match skip_ws r with
            | String "]" r1 => Some (Array [], r1)
            | _ =>
                match parse_value fuel' r with
                | Some (v, rest) =>
                    parse_elements (parse_value fuel') width [v] rest
                | None => None
                end
            end
          else if Ascii.eqb c "{" then
            match skip_ws r with
            | String "}" r1 => Some (Object [], r1)
            | _ =>
                match parse_member (parse_value fuel') r with
                | Some (m, rest) =>
                    parse_members (parse_value fuel') width [m] rest
                | None => None
                end
            end
          else if Ascii.eqb c JS.DQUOTE then
            match parse_chars r with
            | Some (t, rest) => Some (Str t, rest)
            | None => None
            end
          else if Ascii.eqb c "t" then literal "true" (Bool true) s0
          else if Ascii.eqb c "f" then literal "false" (Bool false) s0
          else if Ascii.eqb c "n" then literal "null" Null s0
          else
            match parse_number s0 with
            | Some (lexeme, rest) => Some (Number lexeme, rest)
            | None => None
            end
      end
  end.

(** [JSON.parse]: [None] stands for the [SyntaxError] it throws. *)
Definition parse (s : string) : option value :=
  match parse_value (S (String.length s)) s with
  | Some (v, rest) =>
      match skip_ws rest with
      | EmptyString => Some v
      | String _ _ => None
      end
  | None => None
  end.

Definition hex_digit (n : nat) : ascii :=
  if Nat.ltb n 10 then ascii_of_nat (48 + n) else ascii_of_nat (87 + n).

Fixpoint quote_chars (s : string) : string :=
  match s with
  | EmptyString => EmptyString
  | String c r =>
      let n := nat_of_ascii c in
      (if Ascii.eqb c JS.DQUOTE then String "\" JS.DQ
       else if Ascii.eqb c "\" then "\\"
       else if Nat.eqb n 8 then "\b"
       else if Nat.eqb n 12 then "\f"
       else if Nat.eqb n 10 then "\n"
       else if Nat.eqb n 13 then "\r"
       else if Nat.eqb n 9 then "\t"
       else if Nat.ltb n 32
            then "\u00" ++ String (hex_digit (n / 16))
                            (String (hex_digit (n mod 16)) EmptyString)
            else String c EmptyString) ++ quote_chars r
  end.

Definition quote (s : string) : string := JS.DQ ++ quote_chars s ++ JS.DQ.

(** [JSON.stringify] of a JSON value, without indentation. *)
Fixpoint stringify (v : value) : string :=
  match v with
  | Null => "null"
  | Bool true => "true"
  | Bool false => "false"
  | Number lexeme => lexeme
  | Str s => quote s
  | Array items => "[" ++ JS.join "," (map stringify items) ++ "]"
  | Object members =>
      "{" ++ JS.join ","
               (map (fun m => quote (fst m) ++ ":" ++ stringify (snd m))
                    members) ++ "}"
  end.

(** The digits of a number's mantissa are all zero. *)
Fixpoint mantissa_is_zero (lexeme : string) : bool :=
  match lexeme with
  | EmptyString => true
  | String c r =>
      if (Ascii.eqb c "e" || Ascii.eqb c "E")%bool then true
      else if (is_digit c && negb (Ascii.eqb c "0"))%bool then false
      else mantissa_is_zero r
  end.

(** [if (v)] on a JSON value: [null], [false], zero and [''] are falsy. *)
Definition truthy (v : value) : bool :=
  match v with
  | Null => false
  | Bool b => b
  | Number lexeme => negb (mantissa_is_zero lexeme)
  | Str s => JS.truthy s
  | Array _ => true
  | Object _ => true
  end.

End JSON.

Local Open Scope Z_scope.
Local Open Scope list_scope.

(* ================================================================== *)
(** ** Host data: chat messages and content parts *)

Inductive LanguageModelChatMessageRole : Type := User | Assistant | System.

(** An item of a tool result's [content] array; [item_value] is its [value]
    property, as [join] renders it. *)
Record ResultItem : Type := { item_value : option string }.

(** The part classes of the host.  [LanguageModelTextPart] and
    [LanguageModelToolCallPart] are also what the provider reports back. *)
Inductive ContentPart : Type :=
| LanguageModelTextPart (value : string)
| LanguageModelToolCallPart (callId name : string) (parameters : JSON.value)
| LanguageModelToolResultPart (callId : string) (content : list ResultItem).

(** [msg.content]: a string or an array of parts ([Array.isArray]). *)
Inductive MessageContent : Type :=
| Text (s : string)
| Parts (parts : list ContentPart).

Record LanguageModelChatMessage : Type := {
  msg_role : LanguageModelChatMessageRole;
  msg_content : MessageContent
}.

(** What the translator inspects on a part, property by property. *)
Definition constructor_name (part : ContentPart) : string :=
  match part with
  | LanguageModelTextPart _ => "LanguageModelTextPart"
  | LanguageModelToolCallPart _ _ _ => "LanguageModelToolCallPart"
  | LanguageModelToolResultPart _ _ => "LanguageModelToolResultPart"
  end.

(** [part instanceof LanguageModelTextPart], with the narrowed [value] *)
Definition as_text_part (part : ContentPart) : option string :=
  match part with
  | LanguageModelTextPart v => Some v
  | _ => None
  end.

(** [part instanceof LanguageModelToolCallPart] *)
Definition is_tool_call_part (part : ContentPart) : bool :=
  match part with
  | LanguageModelToolCallPart _ _ _ => true
  | _ => false
  end.

(** [(part as any).callId] *)
Definition callId_of (part : ContentPart) : option string :=
  match part with
  | LanguageModelTextPart _ => None
  | LanguageModelToolCallPart c _ _ => Some c
  | LanguageModelToolResultPart c _ => Some c
  end.

(** [tc.name] *)
Definition name_of (part : ContentPart) : option string :=
  match part with
  | LanguageModelToolCallPart _ n _ => Some n
  | _ => None
  end.

(** [tc.parameters] *)
Definition parameters_of (part : ContentPart) : option JSON.value :=
  match part with
  | LanguageModelToolCallPart _ _ p => Some p
  | _ => None
  end.

(** [(part as any).result]: none of the host's part classes has it. *)
Definition result_of (part : ContentPart) : option JSON.value := None.

(** [tr.content] when it is an array *)
Definition content_of (part : ContentPart) : option (list ResultItem) :=
  match part with
  | LanguageModelToolResultPart _ items => Some items
  | _ => None
  end.

(** The own enumerable properties of a part, for [JSON.stringify(tr)]. *)
Definition part_to_json (part : ContentPart) : JSON.value :=
  match part with
  | LanguageModelTextPart v => JSON.Object [("value", JSON.Str v)]
  | LanguageModelToolCallPart c n p =>
      JSON.Object [("callId", JSON.Str c); ("name", JSON.Str n);
                   ("parameters", p)]
  | LanguageModelToolResultPart c items =>
      JSON.Object
        [("callId", JSON.Str c);
         ("content",
          JSON.Array
            (map (fun it =>
                    match item_value it with
                    | Some v => JSON.Object [("value", JSON.Str v)]
                    | None => JSON.Object []
                    end) items))]
  end.

(* ================================================================== *)
(** ** OpenAI wire data *)

Inductive OpenAIRole : Type := user | assistant | system | tool.

Record FunctionCall : Type := {
  fc_name : option string;
  fc_arguments : option string
}.

Record OpenAIToolCall : Type := {
  otc_id : option string;
  otc_type : string;
  otc_function : FunctionCall
}.

Record OpenAIMessage : Type := {
  role : OpenAIRole;
  content : string;
  tool_call_id : option string;
  tool_calls : option (list OpenAIToolCall)
}.

(** [convertRole] *)
Definition convertRole (r : LanguageModelChatMessageRole) : OpenAIRole :=
  match r with
  | User => user
  | Assistant => assistant
  | _ => user
  end.

(* ================================================================== *)
(** ** The message translator (the [for (const msg of messages)] loop) *)

Section Translator.

(** The host's [JSON.stringify]. *)
Variable JSON_stringify : JSON.value -> string.

Fixpoint filter_map {A B : Type} (f : A -> option B) (xs : list A) : list B :=
  match xs with
  | [] => []
  | x :: rest =>
      match f x with
      | Some y => y :: filter_map f rest
      | None => filter_map f rest
      end
  end.

(** [content.filter(instanceof LanguageModelTextPart).map(value).join('')] *)
Definition textParts_of (parts : list ContentPart) : string :=
  JS.join "" (filter_map as_text_part parts).

Definition toolCalls_of (parts : list ContentPart) : list ContentPart :=
  filter is_tool_call_part parts.

Definition is_defined {A : Type} (o : option A) : bool :=
  match o with Some _ => true | None => false end.

Definition toolResults_of (parts : list ContentPart) : list ContentPart :=
  filter (fun part =>
            (JS.includes (constructor_name part) "ToolResult"
             || JS.includes (constructor_name part) "ToolCall"
             || is_defined (callId_of part)
             || is_defined (result_of part))%bool) parts.

(** One entry of [tool_calls] *)
Definition tool_call_entry (tc : ContentPart) : OpenAIToolCall :=
  {| otc_id := callId_of tc;
     otc_type := "function";
     otc_function :=
       {| fc_name := name_of tc;
          fc_arguments := option_map JSON_stringify (parameters_of tc) |} |}.

(** The [content] extracted from one tool result *)
Definition tool_result_content (tr : ContentPart) : string :=
  match content_of tr with
  | Some items =>
      JS.join (String (ascii_of_nat 10) "")
              (filter_map item_value items)
  | None =>
      match result_of tr with
      | Some r =>
          if JSON.truthy r then
            match r with
            | JSON.Str s => s
            | _ => JSON_stringify r
            end
          else JSON_stringify (part_to_json tr)
      | None => JSON_stringify (part_to_json tr)
      end
  end.

(** What one message pushes onto [openaiMessages]. *)
Definition translate_message (msg : LanguageModelChatMessage)
  : list OpenAIMessage :=
  match msg_content msg with
  | Parts parts =>
      let textParts := textParts_of parts in
      let toolCalls := toolCalls_of parts in
      let toolResults := toolResults_of parts in
      if (0 <? List.length toolCalls)%nat then
        [ {| role := assistant;
             content := JS.or_else textParts "";
             tool_call_id := None;
             tool_calls := Some (map tool_call_entry toolCalls) |} ]
      else if (0 <? List.length toolResults)%nat then
        map (fun tr =>
               {| role := tool;
                  content := tool_result_content tr;
                  tool_call_id := callId_of tr;
                  tool_calls := None |}) toolResults
      else if (0 <? String.length (JS.trim textParts))%nat then
        [ {| role := convertRole (msg_role msg);
             content := textParts;
             tool_call_id := None;
             tool_calls := None |} ]
      else []
  | Text s =>
      let content := JS.or_else s "" in
      if (0 <? String.length (JS.trim content))%nat then
        [ {| role := convertRole (msg_role msg);
             content := content;
             tool_call_id := None;
             tool_calls := None |} ]
      else []
  end.

(** [openaiMessages] after the loop: each message pushes in turn. *)
Definition translate (messages : list LanguageModelChatMessage)
  : list OpenAIMessage :=
  fold_left (fun openaiMessages msg => openaiMessages ++ translate_message msg)
            messages [].

End Translator.

(* ================================================================== *)
(** ** The request builder *)

Record ModelOptions : Type := {
  maxTokens : option Z;
  temperature : option Q
}.

Record LanguageModelChatTool : Type := {
  tool_name : string;
  tool_description : string;
  inputSchema : option JSON.value
}.

Record LanguageModelChatRequestHandleOptions : Type := {
  modelOptions : option ModelOptions;
  tools : option (list LanguageModelChatTool);
  toolMode : option Z
}.

Record Capabilities : Type := {
  toolCalling : bool;
  vision : bool
}.

Record LanguageModelChatInformation : Type := {
  model_id : string;
  model_name : string;
  model_description : string;
  family : string;
  maxInputTokens : Z;
  maxOutputTokens : Z;
  version : string;
  capabilities : option Capabilities
}.

(** [getChatModelInfo] *)
Definition getChatModelInfo (id name : string)
           (maxInputTokens maxOutputTokens : Z) (supportsTools : bool)
  : LanguageModelChatInformation :=
  {| model_id := id;
     model_name := name;
     model_description := ("v0.dev model: " ++ name)%string;
     family := "v0dev";
     maxInputTokens := maxInputTokens;
     maxOutputTokens := maxOutputTokens;
     version := "1.0.0";
     capabilities := Some {| toolCalling := supportsTools; vision := true |} |}.

(** [prepareLanguageModelChat] *)
Definition prepareLanguageModelChat : list LanguageModelChatInformation :=
  [ getChatModelInfo "v0-1.5-md"
      "v0 1.5 MD (Everyday tasks and UI generation)" 128000 64000 true;
    getChatModelInfo "v0-1.5-lg"
      "v0 1.5 LG (Advanced thinking/reasoning)" 512000 64000 true;
    getChatModelInfo "v0-1.0-md"
      "v0 1.0 MD (Legacy model)" 128000 64000 true ].

Record OpenAITool : Type := {
  ot_type : string;
  ot_name : string;
  ot_description : string;
  ot_parameters : JSON.value
}.

Record ChatCompletionCreateParamsStreaming : Type := {
  rp_model : string;
  rp_messages : list OpenAIMessage;
  rp_stream : bool;
  max_tokens : Z;
  rp_temperature : Q;
  rp_tools : option (list OpenAITool);
  tool_choice : option string
}.

(** [x || d] on an optional integer: absent and [0] are falsy. *)
Definition Z_or_else (x : option Z) (d : Z) : Z :=
  match x with
  | Some v => if v =? 0 then d else v
  | None => d
  end.

(** [x || d] on an optional rational: absent and zero are falsy. *)
Definition Q_or_else (x : option Q) (d : Q) : Q :=
  match x with
  | Some v => if Qeq_bool v 0 then d else v
  | None => d
  end.

(** [options.modelOptions?.maxTokens] *)
Definition requested_maxTokens (options : LanguageModelChatRequestHandleOptions)
  : option Z :=
  match modelOptions options with
  | Some mo => maxTokens mo
  | None => None
  end.

(** [options.modelOptions?.temperature] *)
Definition requested_temperature (options : LanguageModelChatRequestHandleOptions)
  : option Q :=
  match modelOptions options with
  | Some mo => temperature mo
  | None => None
  end.

Definition baseParams (model : LanguageModelChatInformation)
           (openaiMessages : list OpenAIMessage)
           (options : LanguageModelChatRequestHandleOptions)
  : ChatCompletionCreateParamsStreaming :=
  {| rp_model := model_id model;
     rp_messages := openaiMessages;
     rp_stream := true;
     max_tokens := Z.min (Z_or_else (requested_maxTokens options) 4000)
                         (maxOutputTokens model);
     rp_temperature :=
       Qmax 0 (Qmin 2 (Q_or_else (requested_temperature options) (7 # 10)));
     rp_tools := None;
     tool_choice := None |}.

(** [tool.inputSchema || { type: "object", properties: {}, required: [] }] *)
Definition default_schema : JSON.value :=
  JSON.Object [("type", JSON.Str "object");
               ("properties", JSON.Object []);
               ("required", JSON.Array [])].

Definition openaiTool_of (t : LanguageModelChatTool) : OpenAITool :=
  {| ot_type := "function";
     ot_name := tool_name t;
     ot_description := tool_description t;
     ot_parameters := match inputSchema t with
                      | Some schema => schema
                      | None => default_schema
                      end |}.

(** [model.capabilities?.toolCalling] *)
Definition supports_toolCalling (model : LanguageModelChatInformation) : bool :=
  match capabilities model with
  | Some c => toolCalling c
  | None => false
  end.

Definition requestParams (model : LanguageModelChatInformation)
           (openaiMessages : list OpenAIMessage)
           (options : LanguageModelChatRequestHandleOptions)
  : ChatCompletionCreateParamsStreaming :=
  let base := baseParams model openaiMessages options in
  match tools options with
  | Some ts =>
      if (supports_toolCalling model && (0 <? List.length ts)%nat)%bool then
        {| rp_model := rp_model base;
           rp_messages := rp_messages base;
           rp_stream := rp_stream base;
           max_tokens := max_tokens base;
           rp_temperature := rp_temperature base;
           rp_tools := Some (map openaiTool_of ts);
           tool_choice :=
             Some (match toolMode options with
                   | Some 2 => "required"
                   | _ => "auto"
                   end) |}
      else base
  | None => base
  end.

(* ================================================================== *)
(** ** The upstream response stream *)

Record FunctionDelta : Type := {
  fn_name : option string;
  fn_arguments : option string
}.

Record ToolCallDelta : Type := {
  tc_index : option Z;
  tc_id : option string;
  tc_function : option FunctionDelta
}.

Record Delta : Type := {
  delta_content : option string;
  delta_tool_calls : option (list ToolCallDelta)
}.

Record Choice : Type := {
  delta : option Delta;
  finish_reason : option string
}.

Record Chunk : Type := { choices : option (list Choice) }.

(** A thrown value.  For an [Error] instance the reporter reads
    [constructor.name], [message] and, when present, [status], [code] and
    [type] (each as the template literal renders it).  Any other thrown
    value is given by what [JSON.stringify] makes of it. *)
Record ErrorObject : Type := {
  err_constructor_name : string;
  err_message : string;
  err_status : option string;
  err_code : option string;
  err_type : option string
}.

(** A thrown value that is not an [Error]: JSON data; a value for which
    [JSON.stringify] returns [undefined] ([undefined], a function, a
    symbol); a BigInt or an object that refers to itself, on which
    [JSON.stringify] throws a [TypeError]. *)
Inductive ThrownValue : Type :=
| Data (v : JSON.value)
| Undefined
| BigInt (n : Z)
| Cyclic.

Inductive Thrown : Type :=
| ErrorInstance (error : ErrorObject)
| NonError (thrown : ThrownValue).

(** The async iterable returned by [create]: each pull yields a chunk, ends
    the stream, or throws. *)
Inductive Stream : Type :=
| Done
| Yield (chunk : Chunk) (rest : Stream)
| Fail (error : Thrown).

(** [prepend chunks s]: the stream that yields [chunks] and goes on as [s]. *)
Fixpoint prepend (chunks : list Chunk) (s : Stream) : Stream :=
  match chunks with
  | [] => s
  | c :: rest => Yield c (prepend rest s)
  end.

(** [token.isCancellationRequested] as read at the n-th poll (the poll made
    when the n-th chunk arrives, n = [chunkCount]). *)
Record CancellationToken : Type := { isCancellationRequested : nat -> bool }.

(* ================================================================== *)
(** ** Reported fragments and the computations that report them *)

Record ChatResponseFragment2 : Type := {
  index : Z;
  part : ContentPart
}.

(** A computation reports fragments to [progress] and then either returns a
    value or throws. *)
Definition Exec (A : Type) : Type :=
  (list ChatResponseFragment2 * (Thrown + A))%type.

Definition ret {A : Type} (a : A) : Exec A := ([], inr a).

Definition throw {A : Type} (e : Thrown) : Exec A := ([], inl e).

(** [progress.report(fragment)] *)
Definition report (fragment : ChatResponseFragment2) : Exec unit :=
  ([fragment], inr tt).

(** [await] of a promise that is settled with [r] *)
Definition await {A : Type} (r : Thrown + A) : Exec A := ([], r).

Definition bind {A B : Type} (m : Exec A) (k : A -> Exec B) : Exec B :=
  match m with
  | (out, inl e) => (out, inl e)
  | (out, inr a) => let (out', r) := k a in (out ++ out', r)
  end.

(** [try { m } catch (error) { handler error }] *)
Definition try_catch {A : Type} (m : Exec A) (handler : Thrown -> Exec A)
  : Exec A :=
  match m with
  | (out, inl e) => let (out', r) := handler e in (out ++ out', r)
  | (out, inr a) => (out, inr a)
  end.

Notation "x <- m ;; k" := (bind m (fun x => k))
  (at level 61, m at next level, right associativity).
Notation "m ;; k" := (bind m (fun _ => k))
  (at level 61, right associativity).

Definition reported {A : Type} (m : Exec A) : list ChatResponseFragment2 :=
  fst m.

Definition outcome {A : Type} (m : Exec A) : Thrown + A := snd m.

(** [for (const x of xs) body(x)] *)
Fixpoint for_each {A : Type} (body : A -> Exec unit) (xs : list A)
  : Exec unit :=
  match xs with
  | [] => ret tt
  | x :: rest => body x ;; for_each body rest
  end.

(* ================================================================== *)
(** ** [toolCallsInProgress]

    A JavaScript object used as a map from tool index to the data gathered
    so far.  The list holds the properties in the order of their creation;
    [Object.entries] lists the array-index keys in ascending order first and
    then the other keys in creation order. *)

Record ToolCallData : Type := {
  id : option string;
  name : option string;
  arguments : string
}.

Definition ToolCallsInProgress : Type := list (Z * ToolCallData).

Fixpoint lookup (toolIndex : Z) (t : ToolCallsInProgress)
  : option ToolCallData :=
  match t with
  | [] => None
  | (k, d) :: rest => if k =? toolIndex then Some d else lookup toolIndex rest
  end.

(** Assignment to a property of an existing entry. *)
Fixpoint update (toolIndex : Z) (f : ToolCallData -> ToolCallData)
         (t : ToolCallsInProgress) : ToolCallsInProgress :=
  match t with
  | [] => []
  | (k, d) :: rest =>
      if k =? toolIndex then (k, f d) :: rest
      else (k, d) :: update toolIndex f rest
  end.

(** [if (!toolCallsInProgress[toolIndex]) toolCallsInProgress[toolIndex] = { arguments: '' }] *)
Definition ensure (toolIndex : Z) (t : ToolCallsInProgress)
  : ToolCallsInProgress :=
  match lookup toolIndex t with
  | Some _ => t
  | None => t ++ [(toolIndex, {| id := None; name := None; arguments := "" |})]
  end.

(** A key that is an array index: an integer in 0 .. 2^32 - 2. *)
Definition is_array_index (k : Z) : bool :=
  ((0 <=? k) && (k <? 2 ^ 32 - 1))%bool.

(** A key that [ToString] writes in decimal notation, without an exponent:
    an integer below 10^21 in absolute value. *)
Definition decimal_key (k : Z) : bool := Z.abs k <? 10 ^ 21.

(** For a positive integer [x] that a Number holds, the least multiplier [c]
    with the most trailing zeros [c * 10^q] that still rounds to [x]: the
    digits that [ToString] shows.  With [x = m * 2^e] for a 53-bit [m], the
    decimals that round to [x] lie between the midpoints to the neighbouring
    Numbers, the midpoints included when [m] is even; the bounds are kept
    doubled. *)
Fixpoint shortest_digits (fuel : nat) (lower upper : Z) (inclusive : bool)
         (q best : Z) : Z :=
  match fuel with
  | O => best
  | S fuel' =>
      let step := 2 * 10 ^ (q + 1) in
      let c := if inclusive then - ((- lower) / step) else lower / step + 1 in
      if (if inclusive then c * step <=? upper else c * step <? upper)
      then shortest_digits fuel' lower upper inclusive (q + 1) c
      else best
  end.

Fixpoint leading_digit (fuel : nat) (c : Z) : Z :=
  match fuel with
  | O => c
  | S fuel' => if c <? 10 then c else leading_digit fuel' (c / 10)
  end.

(** The digit before the point in the exponent notation that [ToString]
    gives for an integer [x >= 10^21] that a Number holds. *)
Definition exponent_digit (x : Z) : Z :=
  let e := Z.log2 x - 52 in
  let m := Z.shiftr x e in
  let upper := 2 * x + 2 ^ e in
  let lower := 2 * x - (if m =? 2 ^ 52 then 2 ^ (e - 1) else 2 ^ e) in
  leading_digit 400 (shortest_digits 400 lower upper (Z.even m) 0 x).

(** [parseInt(key)] for the key [ToString(k)]: the integer itself when the
    key is in decimal notation; otherwise the key reads [d.ddde+NN] or
    [de+NN] and [parseInt] stops after the first digit. *)
Definition parseInt_key (k : Z) : Z :=
  if decimal_key k then k else Z.sgn k * exponent_digit (Z.abs k).

Fixpoint insert_entry (e : Z * ToolCallData) (sorted : ToolCallsInProgress)
  : ToolCallsInProgress :=
  match sorted with
  | [] => [e]
  | x :: rest =>
      if fst e <=? fst x then e :: sorted else x :: insert_entry e rest
  end.

Definition sort_entries (t : ToolCallsInProgress) : ToolCallsInProgress :=
  fold_right insert_entry [] t.

(** [Object.entries(toolCallsInProgress)]; an entry's key stands for the
    string [ToString] gives for it. *)
Definition Object_entries (t : ToolCallsInProgress) : ToolCallsInProgress :=
  sort_entries (filter (fun e => is_array_index (fst e)) t)
  ++ filter (fun e => negb (is_array_index (fst e))) t.

(* ================================================================== *)
(** ** The stream reassembler (the [for await] loop) *)

(** [chunk.choices?.[0]] *)
Definition choice_of (chunk : Chunk) : option Choice :=
  match choices chunk with
  | Some (c :: _) => Some c
  | _ => None
  end.

(** [choice?.delta] *)
Definition delta_of (chunk : Chunk) : option Delta :=
  match choice_of chunk with
  | Some c => delta c
  | None => None
  end.

(** [choice?.finish_reason] *)
Definition finish_reason_of (chunk : Chunk) : option string :=
  match choice_of chunk with
  | Some c => finish_reason c
  | None => None
  end.

(** [toolCall.function?.name] *)
Definition function_name (toolCall : ToolCallDelta) : option string :=
  match tc_function toolCall with
  | Some f => fn_name f
  | None => None
  end.

(** [toolCall.function?.arguments] *)
Definition function_arguments (toolCall : ToolCallDelta) : option string :=
  match tc_function toolCall with
  | Some f => fn_arguments f
  | None => None
  end.

(** [toolCall.index || 0] *)
Definition toolIndex_of (toolCall : ToolCallDelta) : Z :=
  match tc_index toolCall with
  | Some i => i
  | None => 0
  end.

Definition set_id (v : string) (d : ToolCallData) : ToolCallData :=
  {| id := Some v; name := name d; arguments := arguments d |}.

Definition set_name (v : string) (d : ToolCallData) : ToolCallData :=
  {| id := id d; name := Some v; arguments := arguments d |}.

Definition append_arguments (v : string) (d : ToolCallData) : ToolCallData :=
  {| id := id d; name := name d; arguments := (arguments d ++ v)%string |}.

(** The body of [for (const toolCall of delta.tool_calls)]. *)
Definition track_toolCall (t : ToolCallsInProgress) (toolCall : ToolCallDelta)
  : ToolCallsInProgress :=
  let toolIndex := toolIndex_of toolCall in
  let t1 := ensure toolIndex t in
  let t2 := match tc_id toolCall with
            | Some v => if JS.truthy v then update toolIndex (set_id v) t1
                        else t1
            | None => t1
            end in
  let t3 := match function_name toolCall with
            | Some v => if JS.truthy v then update toolIndex (set_name v) t2
                        else t2
            | None => t2
            end in
  match function_arguments toolCall with
  | Some v => if JS.truthy v then update toolIndex (append_arguments v) t3
              else t3
  | None => t3
  end.

(** [if (delta?.tool_calls) for (const toolCall of delta.tool_calls) ...] *)
Definition track_delta (t : ToolCallsInProgress) (chunk : Chunk)
  : ToolCallsInProgress :=
  match delta_of chunk with
  | Some d =>
      match delta_tool_calls d with
      | Some tcs => fold_left track_toolCall tcs t
      | None => t
      end
  | None => t
  end.

(** [if (delta?.content) progress.report({ index: 0, part: new LanguageModelTextPart(delta.content) })] *)
Definition report_content (chunk : Chunk) : Exec unit :=
  match delta_of chunk with
  | Some d =>
      match delta_content d with
      | Some text =>
          if JS.truthy text
          then report {| index := 0; part := LanguageModelTextPart text |}
          else ret tt
      | None => ret tt
      end
  | None => ret tt
  end.

Section Reassembler.

(** The host's [JSON.parse]; [None] when it throws. *)
Variable JSON_parse : string -> option JSON.value.

(** The body of [for (const [toolIndex, toolCallData] of Object.entries(...))]:
    what is reported for one entry, if anything. *)
Definition tool_call_report (entry : Z * ToolCallData)
  : option ChatResponseFragment2 :=
  let (toolIndex, toolCallData) := entry in
  match id toolCallData, name toolCallData with
  | Some i, Some n =>
      if (JS.truthy i && JS.truthy n
          && JS.truthy (arguments toolCallData))%bool then
        match JSON_parse (arguments toolCallData) with
        | Some parsedArgs =>
            Some {| index := parseInt_key toolIndex;
                    part := LanguageModelToolCallPart i n parsedArgs |}
        | None =>
            Some {| index := parseInt_key toolIndex;
                    part := LanguageModelTextPart
                              ("[Tool Call: " ++ n ++ "("
                               ++ arguments toolCallData ++ ")]")%string |}
        end
      else None
  | _, _ => None
  end.

Definition process_tool_call (entry : Z * ToolCallData) : Exec unit :=
  match tool_call_report entry with
  | Some fragment => report fragment
  | None => ret tt
  end.

(** [if (choice.finish_reason === 'tool_calls') ...] *)
Definition process_finish (reason : string) (t : ToolCallsInProgress)
  : Exec unit :=
  if String.eqb reason "tool_calls"
  then for_each process_tool_call (Object_entries t)
  else ret tt.

(** The loop over the stream; the result is [toolCallsInProgress] as the
    loop leaves it. *)
Fixpoint consume (token : CancellationToken) (chunkCount : nat)
         (t : ToolCallsInProgress) (stream : Stream)
  : Exec ToolCallsInProgress :=
  match stream with
  | Done => ret t
  | Fail e => throw e
  | Yield chunk rest =>
      let chunkCount := S chunkCount in
      if isCancellationRequested token chunkCount then ret t
      else
        report_content chunk ;;
        match finish_reason_of chunk with
        | Some reason =>
            if JS.truthy reason
            then process_finish reason t ;; ret t
            else consume token chunkCount (track_delta t chunk) rest
        | None => consume token chunkCount (track_delta t chunk) rest
        end
  end.

End Reassembler.

(* ================================================================== *)
(** ** The credentialed client *)

Record OpenAI : Type := {
  apiKey : string;
  baseURL : string
}.

(** The provider's mutable fields. *)
Record V0DevChatModelProvider : Type := {
  client : option OpenAI;
  lastApiKey : option string
}.

(** Where the key comes from: [process.env.V0_API_KEY] and the setting
    [v0dev.apiKey]. *)
Record Environment : Type := {
  V0_API_KEY : option string;
  config_apiKey : option string
}.

(** [getApiKey] *)
Definition getApiKey (env : Environment) : option string :=
  if JS.truthy_opt (V0_API_KEY env) then V0_API_KEY env
  else if JS.truthy_opt (config_apiKey env) then config_apiKey env
  else None.

(** [a === b] on optional strings *)
Definition strict_eq (a b : option string) : bool :=
  match a, b with
  | Some x, Some y => String.eqb x y
  | None, None => true
  | _, _ => false
  end.

(** [ensureClient]: the client to use, and the provider's fields after the
    call. *)
Definition ensureClient (env : Environment) (this : V0DevChatModelProvider)
  : option OpenAI * V0DevChatModelProvider :=
  let apiKey := getApiKey env in
  if (is_defined (client this) && strict_eq (lastApiKey this) apiKey
      && JS.truthy_opt apiKey)%bool
  then (client this, this)
  else
    match apiKey with
    | Some key =>
        if JS.truthy key then
          let c := {| apiKey := key; baseURL := "https://api.v0.dev/v1" |} in
          (Some c, {| client := Some c; lastApiKey := Some key |})
        else (None, {| client := None; lastApiKey := None |})
    | None => (None, {| client := None; lastApiKey := None |})
    end.

(** [ensureClient] together with the clients that the call constructs
    ([new OpenAI(...)]), in order. *)
Definition ensureClient_run (env : Environment) (this : V0DevChatModelProvider)
  : list OpenAI * (option OpenAI * V0DevChatModelProvider) :=
  let apiKey := getApiKey env in
  if (is_defined (client this) && strict_eq (lastApiKey this) apiKey
      && JS.truthy_opt apiKey)%bool
  then ([], (client this, this))
  else
    match apiKey with
    | Some key =>
        if JS.truthy key then
          let c := {| apiKey := key; baseURL := "https://api.v0.dev/v1" |} in
          ([c], (Some c, {| client := Some c; lastApiKey := Some key |}))
        else ([], (None, {| client := None; lastApiKey := None |}))
    | None => ([], (None, {| client := None; lastApiKey := None |}))
    end.

(* ================================================================== *)
(** ** The error reporter (the [catch] block) *)

Definition LF : string := String (ascii_of_nat 10) "".

Definition not_initialized_message : string :=
  ("❌ v0.dev API client not initialized." ++ LF ++ LF ++
   "Please set your API key:" ++ LF ++
   "• Set V0_API_KEY environment variable, or" ++ LF ++
   "• Configure 'v0dev.apiKey' in VS Code settings" ++ LF ++ LF ++
   "Get your API key at: https://v0.dev/chat/settings/keys")%string.

Definition no_messages_message : string :=
  "Error: No valid messages to process.".

(** The more helpful messages for common issues. *)
Definition classify (errorMessage : string) : string :=
  if (JS.includes errorMessage "401"
      || JS.includes errorMessage "Unauthorized")%bool then
    ("❌ Invalid API key. Please check your v0.dev API key and try again."
     ++ LF ++ LF ++ "Get your API key at: https://v0.dev/chat/settings/keys")%string
  else if (JS.includes errorMessage "403"
           || JS.includes errorMessage "Forbidden")%bool then
    "❌ Access denied. Please check your API key permissions or account status."
  else if (JS.includes errorMessage "429"
           || JS.includes errorMessage "rate limit")%bool then
    "❌ Rate limit exceeded. Please wait a moment and try again."
  else if (JS.includes errorMessage "500"
           || JS.includes errorMessage "Internal Server Error")%bool then
    "❌ v0.dev service error. Please try again later."
  else if (JS.includes errorMessage "network"
           || JS.includes errorMessage "fetch")%bool then
    "❌ Network error. Please check your internet connection and try again."
  else errorMessage.

(** ['p' in error ? `\n- label: ${error.p}` : ''] *)
Definition debug_line (label : string) (property : option string) : string :=
  match property with
  | Some v => (LF ++ "- " ++ label ++ ": " ++ v)%string
  | None => ""
  end.

Section ErrorReporter.

Variable JSON_stringify : JSON.value -> string.

(** [JSON.stringify(error)] in the branch for values that are not an
    [Error]: the text the template shows, or the [TypeError] thrown. *)
Definition stringify_thrown (v : ThrownValue) : Thrown + string :=
  match v with
  | Data d => inr (JSON_stringify d)
  | Undefined => inr "undefined"
  | BigInt _ =>
      inl (ErrorInstance
             {| err_constructor_name := "TypeError";
                err_message := "Do not know how to serialize a BigInt";
                err_status := None; err_code := None; err_type := None |})
  | Cyclic =>
      inl (ErrorInstance
             {| err_constructor_name := "TypeError";
                err_message := "Converting circular structure to JSON";
                err_status := None; err_code := None; err_type := None |})
  end.

(** The text that the [catch] block builds for an [Error] instance. *)
Definition error_instance_text (e : ErrorObject) : string :=
  let debugInfo :=
    (LF ++ LF ++ "Debug info:" ++ LF ++ "- Error type: "
     ++ err_constructor_name e ++ LF ++ "- Message: " ++ err_message e
     ++ debug_line "HTTP Status" (err_status e)
     ++ debug_line "Error Code" (err_code e)
     ++ debug_line "Type" (err_type e))%string in
  ("Error calling v0.dev API: " ++ classify (err_message e)
   ++ debugInfo)%string.

(** The text that the [catch] block builds, or what it throws while
    building it. *)
Definition error_text (error : Thrown) : Thrown + string :=
  match error with
  | ErrorInstance e => inr (error_instance_text e)
  | NonError v =>
      match stringify_thrown v with
      | inr serialized =>
          let debugInfo :=
            (LF ++ LF ++ "Debug info:" ++ LF ++ "- Non-Error object: "
             ++ serialized)%string in
          inr ("Error calling v0.dev API: " ++ "Unknown error occurred"
               ++ debugInfo)%string
      | inl e => inl e
      end
  end.

(** The [catch] block. *)
Definition report_error (error : Thrown) : Exec unit :=
  text <- await (error_text error) ;;
  report {| index := 0; part := LanguageModelTextPart text |}.

End ErrorReporter.

(* ================================================================== *)
(** ** [provideLanguageModelChatResponse] *)

Section Provider.

Variable JSON_parse : string -> option JSON.value.
Variable JSON_stringify : JSON.value -> string.

(** [client.chat.completions.create(requestParams)], awaited: the stream,
    or the error the call throws. *)
Variable create :
  OpenAI -> ChatCompletionCreateParamsStreaming -> Thrown + Stream.

(** The [try] block. *)
Definition exchange (client : OpenAI) (model : LanguageModelChatInformation)
           (messages : list LanguageModelChatMessage)
           (options : LanguageModelChatRequestHandleOptions)
           (token : CancellationToken) : Exec unit :=
  let openaiMessages := translate JSON_stringify messages in
  if (List.length openaiMessages =? 0)%nat then
    report {| index := 0; part := LanguageModelTextPart no_messages_message |}
  else
    stream <- await (create client (requestParams model openaiMessages options)) ;;
    consume JSON_parse token 0 [] stream ;;
    ret tt.

(** The fragments reported to [progress], how the call ends, and the
    provider's fields after the call. *)
Definition provideLanguageModelChatResponse
           (env : Environment) (this : V0DevChatModelProvider)
           (model : LanguageModelChatInformation)
           (messages : list LanguageModelChatMessage)
           (options : LanguageModelChatRequestHandleOptions)
           (token : CancellationToken)
  : Exec unit * V0DevChatModelProvider :=
  let (client, this') := ensureClient env this in
  match client with
  | None =>
      (report {| index := 0;
                 part := LanguageModelTextPart not_initialized_message |},
       this')
  | Some client =>
      (try_catch (exchange client model messages options token)
                 (report_error JSON_stringify),
       this')
  end.

End Provider.

(* ================================================================== *)
(** ** The specification's wording of the request builder *)

(** The temperature as the specification words it:
    [clamp(requested ?? 0.7, 0, 2)]. *)
Definition clamp (x lo hi : Q) : Q := Qmax lo (Qmin hi x).

Definition spec_temperature (requested : option Q) : Q :=
  clamp (match requested with Some v => v | None => 7 # 10 end) 0 2.

(** The token budget as the specification words it:
    [min(requested ?? 4000, model.maxOutputTokens)]. *)
Definition spec_max_tokens (requested : option Z) (maxOutputTokens : Z) : Z :=
  Z.min (match requested with Some v => v | None => 4000 end) maxOutputTokens.

(** ** The specification's wording of the translator *)

(** A text that is empty or holds white space only. *)
Fixpoint whitespace_only (s : string) : bool :=
  match s with
  | EmptyString => true
  | String c r => (JS.is_white_space c && whitespace_only r)%bool
  end.

(** The message the specification promises for a text message: the mapped
    role and the trimmed text. *)
Definition spec_text_message (msg : LanguageModelChatMessage) (t : string)
  : OpenAIMessage :=
  {| role := convertRole (msg_role msg);
     content := JS.trim t;
     tool_call_id := None;
     tool_calls := None |}.

(** ** The vocabulary of the claims about the reassembler *)

(** A chunk that carries a finish reason ([if (choice?.finish_reason)]). *)
Definition has_finish (chunk : Chunk) : bool :=
  JS.truthy_opt (finish_reason_of chunk).

(** No cancellation is observed at the polls 1 .. n. *)
Definition polls_clear (token : CancellationToken) (n : nat) : bool :=
  forallb (fun k => negb (isCancellationRequested token k)) (seq 1 n).

(** The tool-call fragments of a chunk ([delta.tool_calls]), in order. *)
Definition toolCalls_in (chunk : Chunk) : list ToolCallDelta :=
  match delta_of chunk with
  | Some d =>
      match delta_tool_calls d with
      | Some tcs => tcs
      | None => []
      end
  | None => []
  end.

(** The fragments that a run of chunks delivers for one tool index. *)
Definition fragments_at (i : Z) (chunks : list Chunk) : list ToolCallDelta :=
  filter (fun tc => toolIndex_of tc =? i) (flat_map toolCalls_in chunks).

(** [acc] overwritten by [v] when [v] is truthy: the last write wins. *)
Definition overwrite (acc v : option string) : option string :=
  if JS.truthy_opt v then v else acc.

(** The last truthy value in a sequence of optional values. *)
Definition last_truthy (vals : list (option string)) : option string :=
  fold_left overwrite vals None.

(** The pending tool call that a sequence of fragments for one index adds up
    to: the last id, the last name, the argument texts concatenated. *)
Definition pending (frags : list ToolCallDelta) : option ToolCallData :=
  match frags with
  | [] => None
  | _ :: _ =>
      Some {| id := last_truthy (map tc_id frags);
              name := last_truthy (map function_name frags);
              arguments :=
                String.concat "" (filter_map function_arguments frags) |}
  end.

(** [toolCallsInProgress] after a run of chunks without a finish reason. *)
Definition tracked (chunks : list Chunk) : ToolCallsInProgress :=
  fold_left track_delta chunks [].

(** The text fragments that a run of chunks makes the loop report. *)
Definition text_fragments (chunks : list Chunk) : list ChatResponseFragment2 :=
  flat_map (fun chunk => reported (report_content chunk)) chunks.

(** A reported fragment that is a completed tool call. *)
Definition is_tool_call (fragment : ChatResponseFragment2) : bool :=
  is_tool_call_part (part fragment).

(** The text that an optional argument fragment appends. *)
Definition or_empty (o : option string) : string :=
  match o with Some v => v | None => "" end.

(** The data for an index when a fragment arrives: what is there, or the
    fresh [{ arguments: '' }]. *)
Definition or_new (o : option ToolCallData) : ToolCallData :=
  match o with
  | Some d => d
  | None => {| id := None; name := None; arguments := "" |}
  end.

(** What one fragment does to the data of its index. *)
Definition apply_fragment (tc : ToolCallDelta) (d : ToolCallData)
  : ToolCallData :=
  let d1 := match tc_id tc with
            | Some v => if JS.truthy v then set_id v d else d
            | None => d
            end in
  let d2 := match function_name tc with
            | Some v => if JS.truthy v then set_name v d1 else d1
            | None => d1
            end in
  match function_arguments tc with
  | Some v => if JS.truthy v then append_arguments v d2 else d2
  | None => d2
  end.

(** Entries in strictly ascending order of their keys. *)
Definition lt_key (a b : Z * ToolCallData) : Prop := fst a < fst b.

(** What the [catch] block makes of an exchange that had reported [out] when
    [error] was thrown: one more text part, or the error that the block
    itself throws. *)
Definition caught (JSON_stringify : JSON.value -> string)
           (out : list ChatResponseFragment2) (error : Thrown) : Exec unit :=
  match error_text JSON_stringify error with
  | inr text =>
      (out ++ [ {| index := 0; part := LanguageModelTextPart text |} ], inr tt)
  | inl thrown => (out, inl thrown)
  end.


(** A chunk with its tool-call fragments taken away. *)
Definition without_tool_calls (chunk : Chunk) : Chunk :=
  {| choices :=
       option_map
         (map (fun c =>
                 {| delta := option_map
                               (fun d => {| delta_content := delta_content d;
                                            delta_tool_calls := None |})
                               (delta c);
                    finish_reason := finish_reason c |}))
         (choices chunk) |}.

(** The fallback text as the specification words it: [name(argumentsBuffer)]. *)
Definition spec_fallback_text (name argumentsBuffer : string) : string :=
  (name ++ "(" ++ argumentsBuffer ++ ")")%string.

(** ** Streams and tokens for the examples *)

(** A chunk whose delta carries one tool-call fragment. *)
Definition tool_chunk (i : option Z) (call_id fname args : option string)
  : Chunk :=
  {| choices :=
       Some [ {| delta :=
                   Some {| delta_content := None;
                           delta_tool_calls :=
                             Some [ {| tc_index := i;
                                       tc_id := call_id;
                                       tc_function :=
                                         Some {| fn_name := fname;
                                                 fn_arguments := args |} |} ] |};
                 finish_reason := None |} ] |}.

(** A chunk whose delta carries text. *)
Definition text_chunk (text : string) : Chunk :=
  {| choices :=
       Some [ {| delta := Some {| delta_content := Some text;
                                  delta_tool_calls := None |};
                 finish_reason := None |} ] |}.

(** A chunk that carries a finish reason and an empty delta. *)
Definition finish_chunk (reason : string) : Chunk :=
  {| choices :=
       Some [ {| delta := Some {| delta_content := None;
                                  delta_tool_calls := None |};
                 finish_reason := Some reason |} ] |}.

(** A chunk that carries a finish reason and, in its delta, an argument
    fragment for tool index 0. *)
Definition finishing_tool_chunk (reason args : string) : Chunk :=
  {| choices :=
       Some [ {| delta :=
                   Some {| delta_content := None;
                           delta_tool_calls :=
                             Some [ {| tc_index := Some 0;
                                       tc_id := None;
                                       tc_function :=
                                         Some {| fn_name := None;
                                                 fn_arguments := Some args |} |} ] |};
                 finish_reason := Some reason |} ] |}.

(** The first argument fragment of the examples: [{"a":]. *)
Definition args_head : string := ("{" ++ JS.DQ ++ "a" ++ JS.DQ ++ ":")%string.

Definition never_cancelled : CancellationToken :=
  {| isCancellationRequested := fun _ => false |}.

(** Cancellation requested from the n-th poll on. *)
Definition cancelled_from (n : nat) : CancellationToken :=
  {| isCancellationRequested := fun k => (n <=? k)%nat |}.

(* ================================================================== *)
(** ** The configuration listener *)

(** The listener registered by the constructor:
    [if (e.affectsConfiguration('v0dev.apiKey')) { client = null; lastApiKey = null }]. *)
Definition onDidChangeConfiguration (affects_apiKey : bool)
           (this : V0DevChatModelProvider) : V0DevChatModelProvider :=
  if affects_apiKey then {| client := None; lastApiKey := None |} else this.

(** The fields of a new provider. *)
Definition new_provider : V0DevChatModelProvider :=
  {| client := None; lastApiKey := None |}.

(** A cached client was built from the key remembered with it. *)
Definition cache_consistent (this : V0DevChatModelProvider) : Prop :=
  match client this with
  | Some c => lastApiKey this = Some (apiKey c)
              /\ baseURL c = "https://api.v0.dev/v1"
  | None => True
  end.

(* ================================================================== *)
(** ** [provideTokenCount] *)

(** The [text] argument: a string or a chat message. *)
Inductive TokenCountInput : Type :=
| CountText (s : string)
| CountMessage (msg : LanguageModelChatMessage).

(** [content]: the string itself, or the text parts of the message joined,
    every other part counting as ['']. *)
Definition flattened (text : TokenCountInput) : string :=
  match text with
  | CountText s => s
  | CountMessage msg =>
      match msg_content msg with
      | Parts parts =>
          JS.join "" (map (fun part =>
                             match as_text_part part with
                             | Some v => v
                             | None => ""
                             end) parts)
      | Text s => s
      end
  end.

(** [Math.ceil(n / d)] on lengths. *)
Definition ceil_div (n d : nat) : nat :=
  if (n mod d =? 0)%nat then (n / d)%nat else S (n / d).

Section TokenCount.

(** [encode] of gpt-tokenizer: the tokens, or the error it throws. *)
Variable encode : string -> Thrown + list nat.

Definition provideTokenCount (text : TokenCountInput) : nat :=
  match encode (flattened text) with
  | inr tokens => List.length tokens
  | inl _ => ceil_div (String.length (flattened text)) 4
  end.

End TokenCount.

(* ================================================================== *)
(** ** Further vocabulary *)

(** [part instanceof LanguageModelToolResultPart] *)
Definition is_tool_result_part (part : ContentPart) : bool :=
  match part with
  | LanguageModelToolResultPart _ _ => true
  | _ => false
  end.

(** The tool message that one tool result becomes. *)
Definition tool_message_of (part : ContentPart) : option OpenAIMessage :=
  match part with
  | LanguageModelToolResultPart c items =>
      Some {| role := tool;
              content := JS.join LF (filter_map item_value items);
              tool_call_id := Some c;
              tool_calls := None |}
  | _ => None
  end.

(** The message that one text message becomes, if any. *)
Definition text_message_of (msg : LanguageModelChatMessage)
  : option OpenAIMessage :=
  match msg_content msg with
  | Text t =>
      if whitespace_only t then None
      else Some {| role := convertRole (msg_role msg);
                   content := t;
                   tool_call_id := None;
                   tool_calls := None |}
  | Parts _ => None
  end.

(** A message in the shape the upstream accepts: [tool_call_id] only with
    the role tool, [tool_calls] only with the role assistant and then with
    at least one entry, each of the type function; a message without
    [tool_calls] that is not a tool message has text that is not blank. *)
Definition well_formed_message (m : OpenAIMessage) : Prop :=
  (tool_call_id m <> None -> role m = tool)
  /\ (role m = tool -> tool_calls m = None)
  /\ (forall calls,
        tool_calls m = Some calls ->
        role m = assistant /\ calls <> []
        /\ Forall (fun e => otc_type e = "function") calls)
  /\ (tool_calls m = None -> role m <> tool ->
      whitespace_only (content m) = false).

(** The non-empty text that the delta of a chunk carries. *)
Definition text_of (chunk : Chunk) : option string :=
  match choices chunk with
  | Some (c :: _) =>
      match delta c with
      | Some d =>
          match delta_content d with
          | Some (String a r) => Some (String a r)
          | _ => None
          end
      | None => None
      end
  | _ => None
  end.

(** A pending tool call that has its id, its name and its arguments. *)
Definition complete (d : ToolCallData) : bool :=
  match id d, name d, arguments d with
  | Some (String _ _), Some (String _ _), String _ _ => true
  | _, _, _ => false
  end.

(* ================================================================== *)
(** * Properties *)

(** ** The reference JSON functions on the examples of the specification *)

Example parse_object :
  JSON.parse (args_head ++ "1}")%string
  = Some (JSON.Object [("a", JSON.Number "1")]).
Proof. reflexivity. Qed.

Example parse_rejects_bare_key : JSON.parse "{a:1}" = None.
Proof. reflexivity. Qed.

Example parse_rejects_empty : JSON.parse "" = None.
Proof. reflexivity. Qed.

Example parse_nested :
  JSON.parse (" { " ++ JS.DQ ++ "k" ++ JS.DQ
              ++ " : [1, -2.5e3, true, null, " ++ JS.DQ ++ "x\n" ++ JS.DQ
              ++ "] , " ++ JS.DQ ++ "o" ++ JS.DQ ++ ":{} } ")%string
  = Some (JSON.Object
            [("k", JSON.Array [JSON.Number "1"; JSON.Number "-2.5e3";
                               JSON.Bool true; JSON.Null;
                               JSON.Str (String "x" (String (ascii_of_nat 10) ""))]);
             ("o", JSON.Object [])]).
Proof. reflexivity. Qed.

Example stringify_object :
  JSON.stringify (JSON.Object [("a", JSON.Number "1"); ("b", JSON.Str "x")])
  = ("{" ++ JS.DQ ++ "a" ++ JS.DQ ++ ":1," ++ JS.DQ ++ "b" ++ JS.DQ ++ ":"
     ++ JS.DQ ++ "x" ++ JS.DQ ++ "}")%string.
Proof. reflexivity. Qed.

(** ** The request builder *)

Lemma requestParams_max_tokens model openaiMessages options :
  max_tokens (requestParams model openaiMessages options)
  = max_tokens (baseParams model openaiMessages options).
Proof.
  unfold requestParams.
  destruct (tools options) as [ts|]; [|reflexivity].
  destruct (supports_toolCalling model && (0 <? List.length ts)%nat)%bool;
    reflexivity.
Qed.

Lemma requestParams_temperature model openaiMessages options :
  rp_temperature (requestParams model openaiMessages options)
  = rp_temperature (baseParams model openaiMessages options).
Proof.
  unfold requestParams.
  destruct (tools options) as [ts|]; [|reflexivity].
  destruct (supports_toolCalling model && (0 <? List.length ts)%nat)%bool;
    reflexivity.
Qed.

(** Away from a requested temperature of zero the built temperature is the
    specified one. *)
Lemma temperature_agrees_off_zero model openaiMessages options :
  match requested_temperature options with
  | Some v => Qeq_bool v 0 = false
  | None => True
  end ->
  rp_temperature (requestParams model openaiMessages options)
  = spec_temperature (requested_temperature options).
Proof.
  intro H. rewrite requestParams_temperature.
  unfold baseParams, spec_temperature, clamp, Q_or_else; simpl.
  destruct (requested_temperature options) as [v|]; [|reflexivity].
  now rewrite H.
Qed.

Example temperature_absent model openaiMessages :
  rp_temperature
    (requestParams model openaiMessages
       {| modelOptions := None; tools := None; toolMode := None |})
  = (7 # 10)%Q.
Proof. rewrite requestParams_temperature. reflexivity. Qed.

Example temperature_five model openaiMessages :
  rp_temperature
    (requestParams model openaiMessages
       {| modelOptions := Some {| maxTokens := None; temperature := Some 5%Q |};
          tools := None; toolMode := None |})
  = 2%Q.
Proof. rewrite requestParams_temperature. reflexivity. Qed.

Example temperature_minus_one model openaiMessages :
  rp_temperature
    (requestParams model openaiMessages
       {| modelOptions := Some {| maxTokens := None;
                                  temperature := Some (-1)%Q |};
          tools := None; toolMode := None |})
  = 0%Q.
Proof. rewrite requestParams_temperature. reflexivity. Qed.

(** C3. A requested temperature of 0 does not yield 0: [0 || 0.7] is 0.7, so
    the request carries 0.7, while [clamp(0 ?? 0.7, 0, 2)] is 0. *)
Theorem temperature_zero_request model openaiMessages options :
  requested_temperature options = Some 0%Q ->
  rp_temperature (requestParams model openaiMessages options) = (7 # 10)%Q
  /\ (spec_temperature (requested_temperature options) == 0)%Q
  /\ ~ (rp_temperature (requestParams model openaiMessages options)
        == spec_temperature (requested_temperature options))%Q.
Proof.
  intro H. rewrite requestParams_temperature.
  unfold baseParams; simpl. rewrite H.
  split; [reflexivity|]. split; [reflexivity|].
  intro E. vm_compute in E. discriminate E.
Qed.

Lemma temperature_zero_request_witness :
  let options :=
    {| modelOptions := Some {| maxTokens := None; temperature := Some 0%Q |};
       tools := None; toolMode := None |} in
  rp_temperature (requestParams (getChatModelInfo "v0-1.5-md" "md" 128000 64000 true)
                                [] options) = (7 # 10)%Q.
Proof.
  intro options.
  exact (proj1 (temperature_zero_request
                  (getChatModelInfo "v0-1.5-md" "md" 128000 64000 true)
                  [] options eq_refl)).
Defined.

(** C4, as stated, fails: a requested budget of 0 is falsy, so the default
    4000 is used and the request carries 4000, not 0. *)
Lemma max_tokens_zero_counterexample :
  ~ (forall model openaiMessages options,
        max_tokens (requestParams model openaiMessages options)
        = spec_max_tokens (requested_maxTokens options) (maxOutputTokens model)).
Proof.
  intro H.
  specialize (H (getChatModelInfo "v0-1.5-md" "md" 128000 64000 true) []
                {| modelOptions := Some {| maxTokens := Some 0;
                                           temperature := None |};
                   tools := None; toolMode := None |}).
  vm_compute in H. discriminate H.
Qed.

(** C4, amended. The built [max_tokens] is
    [min(requested || 4000, model.maxOutputTokens)]: the default 4000 stands
    in for an absent budget and for a requested budget of 0; any other
    requested budget is used as it is. *)
Theorem max_tokens_built model openaiMessages options :
  max_tokens (requestParams model openaiMessages options)
  = Z.min (match requested_maxTokens options with
           | None => 4000
           | Some 0 => 4000
           | Some v => v
           end) (maxOutputTokens model).
Proof.
  rewrite requestParams_max_tokens. unfold baseParams, Z_or_else; simpl.
  destruct (requested_maxTokens options) as [[|p|p]|]; reflexivity.
Qed.

Example max_tokens_capped openaiMessages :
  max_tokens
    (requestParams (getChatModelInfo "v0-1.5-md" "md" 128000 64000 true)
       openaiMessages
       {| modelOptions := Some {| maxTokens := Some 999999;
                                  temperature := None |};
          tools := None; toolMode := None |})
  = 64000.
Proof. rewrite requestParams_max_tokens. reflexivity. Qed.

Example max_tokens_default openaiMessages :
  max_tokens
    (requestParams (getChatModelInfo "v0-1.5-md" "md" 128000 64000 true)
       openaiMessages
       {| modelOptions := None; tools := None; toolMode := None |})
  = 4000.
Proof. rewrite requestParams_max_tokens. reflexivity. Qed.

(* ================================================================== *)
(** ** The message translator *)

Lemma or_else_empty (s : string) : JS.or_else s "" = s.
Proof. destruct s; reflexivity. Qed.

Lemma trimStart_empty (s : string) :
  JS.trimStart s = "" <-> whitespace_only s = true.
Proof.
  induction s as [|c r IH]; simpl.
  - tauto.
  - destruct (JS.is_white_space c); simpl.
    + exact IH.
    + split; discriminate.
Qed.

Lemma trimStart_head (s : string) c r :
  JS.trimStart s = String c r -> JS.is_white_space c = false.
Proof.
  induction s as [|a s IH]; simpl; [discriminate|].
  destruct (JS.is_white_space a) eqn:Ea; [exact IH|].
  intro H; injection H as -> _; exact Ea.
Qed.

Lemma trimEnd_head c r :
  JS.is_white_space c = false -> JS.trimEnd (String c r) <> "".
Proof.
  intro H; simpl. rewrite H. destruct (JS.trimEnd r); discriminate.
Qed.

(** [text.trim().length > 0] holds exactly of the texts with a character
    that is not white space. *)
Lemma trim_length_positive (s : string) :
  (0 <? String.length (JS.trim s))%nat = negb (whitespace_only s).
Proof.
  unfold JS.trim.
  destruct (whitespace_only s) eqn:W.
  - apply trimStart_empty in W. rewrite W. reflexivity.
  - destruct (JS.trimStart s) as [|c r] eqn:E.
    + apply trimStart_empty in E. congruence.
    + pose proof (trimEnd_head c r (trimStart_head _ _ _ E)) as N.
      destruct (JS.trimEnd (String c r)); [congruence | reflexivity].
Qed.

Section TranslatorFacts.

Variable JSON_stringify : JSON.value -> string.

Lemma fold_push {A B : Type} (f : A -> list B) (xs : list A) (acc : list B) :
  fold_left (fun out x => out ++ f x) xs acc = acc ++ flat_map f xs.
Proof.
  revert acc; induction xs as [|x xs IH]; intro acc; simpl.
  - now rewrite app_nil_r.
  - rewrite IH. now rewrite app_assoc.
Qed.

Lemma translate_flat_map messages :
  translate JSON_stringify messages
  = flat_map (translate_message JSON_stringify) messages.
Proof. unfold translate. now rewrite fold_push. Qed.

(** What a message contributes does not depend on its neighbours. *)
Lemma translate_middle pre msg post :
  translate JSON_stringify (pre ++ msg :: post)
  = translate JSON_stringify pre
    ++ translate_message JSON_stringify msg
    ++ translate JSON_stringify post.
Proof.
  rewrite !translate_flat_map. rewrite flat_map_app. reflexivity.
Qed.

Lemma translate_message_text msg t :
  msg_content msg = Text t ->
  translate_message JSON_stringify msg
  = if whitespace_only t then []
    else [ {| role := convertRole (msg_role msg);
              content := t;
              tool_call_id := None;
              tool_calls := None |} ].
Proof.
  intro H. unfold translate_message. rewrite H.
  rewrite or_else_empty, trim_length_positive.
  destruct (whitespace_only t); reflexivity.
Qed.

Lemma toolCalls_of_nonempty parts c n p :
  In (LanguageModelToolCallPart c n p) parts ->
  (0 <? List.length (toolCalls_of parts))%nat = true.
Proof.
  intro H. unfold toolCalls_of.
  assert (I : In (LanguageModelToolCallPart c n p)
                 (filter is_tool_call_part parts))
    by (apply filter_In; split; [exact H | reflexivity]).
  destruct (filter is_tool_call_part parts); [destruct I | reflexivity].
Qed.

End TranslatorFacts.

(** C6, as stated, fails: the text is pushed as it is, only the test for
    emptiness trims it.  The message [" hi"] is translated to the content
    [" hi"], not ["hi"]. *)
Lemma translate_text_untrimmed_counterexample :
  ~ (forall (JSON_stringify : JSON.value -> string) msg t,
        msg_content msg = Text t ->
        whitespace_only t = false ->
        translate JSON_stringify [msg] = [spec_text_message msg t]).
Proof.
  intro H.
  specialize (H JSON.stringify {| msg_role := User; msg_content := Text " hi" |}
                " hi" eq_refl eq_refl).
  vm_compute in H. discriminate H.
Qed.

(** C6, amended. A message whose content is a single text with a character
    that is not white space contributes exactly one OpenAI message, with the
    mapped role (User to user, Assistant to assistant, anything else to user)
    and the text unchanged (not trimmed); a message whose text is empty or
    white space only contributes nothing. *)
Theorem translate_text_message
        (JSON_stringify : JSON.value -> string) pre msg post t :
  msg_content msg = Text t ->
  (whitespace_only t = false ->
   translate JSON_stringify (pre ++ msg :: post)
   = translate JSON_stringify pre
     ++ [ {| role := match msg_role msg with
                     | User => user
                     | Assistant => assistant
                     | System => user
                     end;
             content := t;
             tool_call_id := None;
             tool_calls := None |} ]
     ++ translate JSON_stringify post)
  /\ (whitespace_only t = true ->
      translate JSON_stringify (pre ++ msg :: post)
      = translate JSON_stringify pre ++ translate JSON_stringify post).
Proof.
  intro H. rewrite translate_middle, (translate_message_text _ _ _ H).
  split; intros ->.
  - unfold convertRole. destruct (msg_role msg); reflexivity.
  - reflexivity.
Qed.

Lemma translate_text_message_witness :
  translate JSON.stringify
    [ {| msg_role := Assistant; msg_content := Text "   " |};
      {| msg_role := System; msg_content := Text " hi " |} ]
  = [ {| role := user; content := " hi ";
         tool_call_id := None; tool_calls := None |} ]
  /\ translate JSON.stringify
       [ {| msg_role := Assistant; msg_content := Text "   " |} ] = [].
Proof.
  split.
  - exact (proj1 (translate_text_message JSON.stringify
                    [ {| msg_role := Assistant; msg_content := Text "   " |} ]
                    {| msg_role := System; msg_content := Text " hi " |}
                    [] " hi " eq_refl) eq_refl).
  - exact (proj2 (translate_text_message JSON.stringify
                    [] {| msg_role := Assistant; msg_content := Text "   " |}
                    [] "   " eq_refl) eq_refl).
Defined.

(** C7. A message whose parts hold at least one tool call and at least one
    tool result contributes exactly one OpenAI message: its role is
    assistant, it carries the [tool_calls] array (one entry per tool-call
    part, in order) and the concatenated text parts; no message of role tool
    is pushed for it. *)
Theorem translate_tool_calls_win
        (JSON_stringify : JSON.value -> string) pre msg post parts :
  msg_content msg = Parts parts ->
  (exists c n p, In (LanguageModelToolCallPart c n p) parts) ->
  (exists c items, In (LanguageModelToolResultPart c items) parts) ->
  translate JSON_stringify (pre ++ msg :: post)
  = translate JSON_stringify pre
    ++ [ {| role := assistant;
            content := String.concat "" (filter_map as_text_part parts);
            tool_call_id := None;
            tool_calls :=
              Some (map (tool_call_entry JSON_stringify)
                        (filter is_tool_call_part parts)) |} ]
    ++ translate JSON_stringify post
  /\ Forall (fun m => role m <> tool) (translate_message JSON_stringify msg).
Proof.
  intros H (c & n & p & Hc) _.
  assert (E : translate_message JSON_stringify msg
              = [ {| role := assistant;
                     content := String.concat "" (filter_map as_text_part parts);
                     tool_call_id := None;
                     tool_calls :=
                       Some (map (tool_call_entry JSON_stringify)
                                 (filter is_tool_call_part parts)) |} ]).
  { unfold translate_message. rewrite H.
    rewrite (toolCalls_of_nonempty _ _ _ _ Hc), or_else_empty.
    reflexivity. }
  rewrite translate_middle, E. split; [reflexivity|].
  constructor; [simpl; discriminate | constructor].
Qed.

(* ================================================================== *)
(** ** [toolCallsInProgress] as a map *)

Lemma lookup_update i k f t :
  lookup i (update k f t)
  = if k =? i then option_map f (lookup i t) else lookup i t.
Proof.
  induction t as [|[k0 d] rest IH]; simpl.
  - now destruct (k =? i).
  - destruct (Z.eqb_spec k0 k) as [->|Hk]; simpl.
    + destruct (Z.eqb_spec k i); reflexivity.
    + rewrite IH.
      destruct (Z.eqb_spec k0 i) as [->|Hi]; [|reflexivity].
      destruct (Z.eqb_spec k i); [congruence | reflexivity].
Qed.

Lemma lookup_app_new i k d t :
  lookup i (t ++ [(k, d)])
  = match lookup i t with
    | Some x => Some x
    | None => if k =? i then Some d else None
    end.
Proof.
  induction t as [|[k0 d0] rest IH]; simpl; [reflexivity|].
  destruct (k0 =? i); [reflexivity | exact IH].
Qed.

Lemma lookup_ensure i k t :
  lookup i (ensure k t)
  = if k =? i then Some (or_new (lookup i t)) else lookup i t.
Proof.
  unfold ensure.
  destruct (lookup k t) as [x|] eqn:E.
  - destruct (Z.eqb_spec k i) as [<-|]; [now rewrite E | reflexivity].
  - rewrite lookup_app_new.
    destruct (Z.eqb_spec k i) as [<-|]; [now rewrite E|].
    now destruct (lookup i t).
Qed.

Lemma lookup_track_toolCall i t tc :
  lookup i (track_toolCall t tc)
  = if toolIndex_of tc =? i
    then Some (apply_fragment tc (or_new (lookup i t)))
    else lookup i t.
Proof.
  unfold track_toolCall, apply_fragment.
  destruct (tc_id tc) as [a|]; [destruct (JS.truthy a)|];
    (destruct (function_name tc) as [b|]; [destruct (JS.truthy b)|]);
    (destruct (function_arguments tc) as [c|]; [destruct (JS.truthy c)|]);
    rewrite ?lookup_update, lookup_ensure;
    destruct (toolIndex_of tc =? i); reflexivity.
Qed.

Lemma lookup_None_iff k t : lookup k t = None <-> ~ In k (map fst t).
Proof.
  induction t as [|[k0 d] rest IH]; simpl.
  - tauto.
  - destruct (Z.eqb_spec k0 k) as [->|N].
    + split; [discriminate | intro H; exfalso; apply H; now left].
    + rewrite IH. tauto.
Qed.

Lemma lookup_In k d t : lookup k t = Some d -> In (k, d) t.
Proof.
  induction t as [|[k0 d0] rest IH]; simpl; [discriminate|].
  destruct (Z.eqb_spec k0 k) as [->|N].
  - intro H; injection H as ->; now left.
  - intro H; right; auto.
Qed.

Lemma keys_update k f t : map fst (update k f t) = map fst t.
Proof.
  induction t as [|[k0 d] rest IH]; simpl; [reflexivity|].
  destruct (k0 =? k); simpl; [reflexivity | now rewrite IH].
Qed.

Lemma NoDup_keys_ensure k t :
  NoDup (map fst t) -> NoDup (map fst (ensure k t)).
Proof.
  intro H. unfold ensure.
  destruct (lookup k t) eqn:E; [exact H|].
  rewrite map_app; simpl.
  apply lookup_None_iff in E.
  apply NoDup_rev in H. rewrite <- (rev_involutive (map fst t ++ [k])).
  apply NoDup_rev. rewrite rev_app_distr; simpl.
  constructor; [now rewrite <- in_rev | exact H].
Qed.

Lemma NoDup_keys_track_toolCall t tc :
  NoDup (map fst t) -> NoDup (map fst (track_toolCall t tc)).
Proof.
  intro H. unfold track_toolCall.
  destruct (tc_id tc) as [a|]; [destruct (JS.truthy a)|];
    (destruct (function_name tc) as [b|]; [destruct (JS.truthy b)|]);
    (destruct (function_arguments tc) as [c|]; [destruct (JS.truthy c)|]);
    rewrite ?keys_update; now apply NoDup_keys_ensure.
Qed.

Lemma track_delta_fold t chunk :
  track_delta t chunk = fold_left track_toolCall (toolCalls_in chunk) t.
Proof.
  unfold track_delta, toolCalls_in.
  destruct (delta_of chunk) as [d|]; [|reflexivity].
  destruct (delta_tool_calls d); reflexivity.
Qed.

Lemma track_chunks_fold chunks t :
  fold_left track_delta chunks t
  = fold_left track_toolCall (flat_map toolCalls_in chunks) t.
Proof.
  revert t; induction chunks as [|c rest IH]; intro t; simpl; [reflexivity|].
  now rewrite fold_left_app, IH, track_delta_fold.
Qed.

Lemma NoDup_keys_fold tcs t :
  NoDup (map fst t) -> NoDup (map fst (fold_left track_toolCall tcs t)).
Proof.
  revert t; induction tcs as [|tc rest IH]; intros t H; simpl; [exact H|].
  apply IH. now apply NoDup_keys_track_toolCall.
Qed.

(** No index is tracked twice. *)
Lemma NoDup_keys_tracked chunks : NoDup (map fst (tracked chunks)).
Proof.
  unfold tracked. rewrite track_chunks_fold.
  apply NoDup_keys_fold. constructor.
Qed.

Lemma append_nil_r (s : string) : (s ++ "")%string = s.
Proof. induction s as [|c r IH]; simpl; [reflexivity | now rewrite IH]. Qed.

Lemma append_assoc (a b c : string) :
  ((a ++ b) ++ c)%string = (a ++ b ++ c)%string.
Proof. induction a as [|x r IH]; simpl; [reflexivity | now rewrite IH]. Qed.

Lemma falsy_empty (s : string) : JS.truthy s = false -> s = "".
Proof. destruct s; [reflexivity | discriminate]. Qed.

Lemma apply_fragment_fields tc d :
  apply_fragment tc d
  = {| id := overwrite (id d) (tc_id tc);
       name := overwrite (name d) (function_name tc);
       arguments := (arguments d ++ or_empty (function_arguments tc))%string |}.
Proof.
  unfold apply_fragment, overwrite, JS.truthy_opt, or_empty.
  destruct d as [di dn da]; simpl.
  destruct (tc_id tc) as [a|]; [destruct (JS.truthy a)|];
    (destruct (function_name tc) as [b|]; [destruct (JS.truthy b)|]);
    (destruct (function_arguments tc) as [c|];
     [destruct (JS.truthy c) eqn:Ec; [|apply falsy_empty in Ec; subst c]|]);
    unfold append_arguments, set_name, set_id; simpl;
    rewrite ?append_nil_r; reflexivity.
Qed.

Lemma concat_arguments_cons tc rest :
  String.concat "" (filter_map function_arguments (tc :: rest))
  = (or_empty (function_arguments tc)
     ++ String.concat "" (filter_map function_arguments rest))%string.
Proof.
  simpl. destruct (function_arguments tc) as [v|]; simpl; [|reflexivity].
  destruct (filter_map function_arguments rest); simpl;
    [now rewrite append_nil_r | reflexivity].
Qed.

(** The data that a sequence of fragments for one index leaves, from what
    was there before. *)
Lemma fold_fragments frags o :
  fold_left (fun o tc => Some (apply_fragment tc (or_new o))) frags o
  = match frags with
    | [] => o
    | _ :: _ =>
        Some {| id := fold_left overwrite (map tc_id frags) (id (or_new o));
                name := fold_left overwrite (map function_name frags)
                                  (name (or_new o));
                arguments :=
                  (arguments (or_new o)
                   ++ String.concat "" (filter_map function_arguments frags))%string |}
    end.
Proof.
  revert o; induction frags as [|tc rest IH]; intro o; [reflexivity|].
  cbn [fold_left]. rewrite IH. rewrite concat_arguments_cons.
  destruct rest as [|tc' rest'].
  - rewrite apply_fragment_fields. simpl. now rewrite !append_nil_r.
  - cbn [or_new]. rewrite apply_fragment_fields. cbn [id name arguments map fold_left].
    now rewrite append_assoc.
Qed.

Lemma lookup_fold i tcs t :
  lookup i (fold_left track_toolCall tcs t)
  = fold_left (fun o tc => Some (apply_fragment tc (or_new o)))
              (filter (fun tc => toolIndex_of tc =? i) tcs) (lookup i t).
Proof.
  revert t; induction tcs as [|tc rest IH]; intro t; simpl; [reflexivity|].
  rewrite IH, lookup_track_toolCall.
  destruct (toolIndex_of tc =? i); reflexivity.
Qed.

(** The pending tool call of an index is what its fragments add up to. *)
Lemma lookup_tracked i chunks :
  lookup i (tracked chunks) = pending (fragments_at i chunks).
Proof.
  unfold tracked, fragments_at, pending, last_truthy.
  rewrite track_chunks_fold, lookup_fold, fold_fragments.
  destruct (filter _ _); reflexivity.
Qed.

Lemma tracked_key_is_fragment_index k chunks :
  In k (map fst (tracked chunks)) ->
  exists tc, In tc (flat_map toolCalls_in chunks) /\ toolIndex_of tc = k.
Proof.
  intro H.
  destruct (lookup k (tracked chunks)) eqn:E.
  - rewrite lookup_tracked in E. unfold pending, fragments_at in E.
    destruct (filter _ _) as [|tc l] eqn:F; [discriminate|].
    assert (I : In tc (filter (fun tc => toolIndex_of tc =? k)
                              (flat_map toolCalls_in chunks)))
      by (rewrite F; now left).
    apply filter_In in I. destruct I as [I1 I2].
    exists tc. split; [exact I1 | now apply Z.eqb_eq].
  - apply lookup_None_iff in E. contradiction.
Qed.

(* ================================================================== *)
(** ** [Object.entries]: every entry once, array indices ascending *)

Lemma insert_entry_perm e l : Permutation (e :: l) (insert_entry e l).
Proof.
  induction l as [|x rest IH]; simpl; [reflexivity|].
  destruct (fst e <=? fst x); [reflexivity|].
  rewrite perm_swap. now constructor.
Qed.

Lemma sort_entries_perm t : Permutation t (sort_entries t).
Proof.
  induction t as [|e rest IH]; simpl; [constructor|].
  rewrite <- insert_entry_perm. now constructor.
Qed.

Lemma filter_split {A : Type} (f : A -> bool) (l : list A) :
  Permutation l (filter f l ++ filter (fun x => negb (f x)) l).
Proof.
  induction l as [|x rest IH]; simpl; [constructor|].
  destruct (f x); simpl.
  - now constructor.
  - now apply Permutation_cons_app.
Qed.

Lemma Object_entries_perm t : Permutation t (Object_entries t).
Proof.
  unfold Object_entries.
  rewrite <- sort_entries_perm. apply filter_split.
Qed.

Lemma filter_perm {A : Type} (f : A -> bool) (l l' : list A) :
  Permutation l l' -> Permutation (filter f l) (filter f l').
Proof.
  induction 1 as [|x l l' _ IH|x y l|l l' l'' _ IH1 _ IH2]; simpl.
  - constructor.
  - destruct (f x); [now constructor | exact IH].
  - destruct (f x), (f y); try reflexivity. apply perm_swap.
  - now transitivity (filter f l').
Qed.

Lemma filter_key_absent i (t : ToolCallsInProgress) :
  ~ In i (map fst t) -> filter (fun e => fst e =? i) t = [].
Proof.
  induction t as [|[k d] rest IH]; simpl; [reflexivity|].
  intro H. destruct (Z.eqb_spec k i) as [->|N].
  - exfalso; apply H; now left.
  - apply IH. tauto.
Qed.

Lemma filter_key_unique i d t :
  NoDup (map fst t) -> lookup i t = Some d ->
  filter (fun e => fst e =? i) t = [(i, d)].
Proof.
  induction t as [|[k d0] rest IH]; simpl; [discriminate|].
  intros ND L. inversion ND as [|? ? Hk ND']; subst.
  destruct (Z.eqb_spec k i) as [->|N].
  - injection L as ->. now rewrite filter_key_absent.
  - now apply IH.
Qed.

(** [Object.entries] lists the entry of a tracked index exactly once. *)
Lemma Object_entries_unique i d t :
  NoDup (map fst t) -> lookup i t = Some d ->
  filter (fun e => fst e =? i) (Object_entries t) = [(i, d)].
Proof.
  intros ND L.
  apply Permutation_length_1_inv.
  rewrite <- (filter_key_unique i d t ND L).
  apply filter_perm, Object_entries_perm.
Qed.

Lemma insert_entry_In x e l : In x (insert_entry e l) <-> x = e \/ In x l.
Proof.
  split; intro H.
  - apply (Permutation_in _ (Permutation_sym (insert_entry_perm e l))) in H.
    destruct H; [left; congruence | now right].
  - apply (Permutation_in _ (insert_entry_perm e l)).
    destruct H; [left; congruence | now right].
Qed.

Lemma insert_entry_sorted e l :
  StronglySorted lt_key l -> ~ In (fst e) (map fst l) ->
  StronglySorted lt_key (insert_entry e l).
Proof.
  induction l as [|x rest IH]; simpl; intros S N.
  - constructor; constructor.
  - inversion S as [|? ? S' F]; subst.
    destruct (Z.leb_spec (fst e) (fst x)) as [L|L].
    + constructor; [exact S|].
      assert (Lt : lt_key e x) by (unfold lt_key; lia).
      constructor; [exact Lt|].
      rewrite Forall_forall in F |- *. intros y Hy.
      specialize (F y Hy). unfold lt_key in *. lia.
    + constructor.
      * apply IH; [exact S' | tauto].
      * rewrite Forall_forall in F |- *. intros y Hy.
        apply insert_entry_In in Hy. destruct Hy as [->|Hy];
          [unfold lt_key; lia | now apply F].
Qed.

Lemma sort_entries_sorted (t : ToolCallsInProgress) :
  NoDup (map fst t) -> StronglySorted lt_key (sort_entries t).
Proof.
  induction t as [|e rest IH]; simpl; intro ND; [constructor|].
  inversion ND as [|? ? Hk ND']; subst.
  apply insert_entry_sorted; [now apply IH|].
  intro H. apply Hk.
  apply (Permutation_in _ (Permutation_map fst
                             (Permutation_sym (sort_entries_perm rest)))).
  exact H.
Qed.

Lemma filter_all {A : Type} (f : A -> bool) (l : list A) :
  Forall (fun x => f x = true) l ->
  filter f l = l /\ filter (fun x => negb (f x)) l = [].
Proof.
  induction 1 as [|x rest Hx _ [IH1 IH2]]; simpl; [now split|].
  rewrite Hx; simpl. now rewrite IH1, IH2.
Qed.

(** When every tracked index is an array index, [Object.entries] is in
    ascending order of the indices. *)
Lemma Object_entries_sorted (t : ToolCallsInProgress) :
  NoDup (map fst t) ->
  Forall (fun e => is_array_index (fst e) = true) t ->
  StronglySorted lt_key (Object_entries t).
Proof.
  intros ND A. unfold Object_entries.
  destruct (filter_all (fun e => is_array_index (fst e)) t A) as [-> ->].
  rewrite app_nil_r. now apply sort_entries_sorted.
Qed.

(* ================================================================== *)
(** ** The loop over the stream *)

Lemma polls_clear_spec token n :
  polls_clear token n = true <->
  (forall k, (1 <= k <= n)%nat -> isCancellationRequested token k = false).
Proof.
  unfold polls_clear. rewrite forallb_forall. split; intros H k Hk.
  - apply negb_true_iff, H, in_seq. lia.
  - apply negb_true_iff, H. apply in_seq in Hk. lia.
Qed.

Lemma polls_clear_le token n m :
  (m <= n)%nat -> polls_clear token n = true -> polls_clear token m = true.
Proof.
  rewrite !polls_clear_spec. intros L H k Hk. apply H. lia.
Qed.

Lemma report_content_returns chunk :
  report_content chunk = (reported (report_content chunk), inr tt).
Proof.
  unfold report_content.
  destruct (delta_of chunk) as [d|]; [|reflexivity].
  destruct (delta_content d) as [text|]; [|reflexivity].
  destruct (JS.truthy text); reflexivity.
Qed.

(** The loop reports text parts at index 0 for the text of the chunks. *)
Lemma report_content_text chunk :
  Forall (fun e => index e = 0 /\ is_tool_call e = false)
         (reported (report_content chunk)).
Proof.
  unfold report_content.
  destruct (delta_of chunk) as [d|]; [|constructor].
  destruct (delta_content d) as [text|]; [|constructor].
  destruct (JS.truthy text); repeat constructor.
Qed.

Lemma text_fragments_text chunks :
  Forall (fun e => index e = 0 /\ is_tool_call e = false)
         (text_fragments chunks).
Proof.
  unfold text_fragments.
  induction chunks as [|c rest IH]; simpl; [constructor|].
  apply Forall_app. split; [apply report_content_text | exact IH].
Qed.

Lemma text_fragments_app a b :
  text_fragments (a ++ b) = text_fragments a ++ text_fragments b.
Proof. unfold text_fragments. apply flat_map_app. Qed.

Lemma text_fragments_one chunk :
  text_fragments [chunk] = reported (report_content chunk).
Proof. unfold text_fragments; simpl. apply app_nil_r. Qed.

(** [report_content] does not look at the tool-call fragments. *)
Lemma report_content_without_tool_calls chunk :
  report_content (without_tool_calls chunk) = report_content chunk.
Proof.
  unfold report_content, delta_of, choice_of, without_tool_calls; simpl.
  destruct (choices chunk) as [[|c cs]|]; simpl; try reflexivity.
  destruct (delta c); reflexivity.
Qed.

Lemma finish_reason_without_tool_calls chunk :
  finish_reason_of (without_tool_calls chunk) = finish_reason_of chunk.
Proof.
  unfold finish_reason_of, choice_of, without_tool_calls; simpl.
  destruct (choices chunk) as [[|c cs]|]; reflexivity.
Qed.

Lemma toolCalls_in_without_tool_calls chunk :
  toolCalls_in (without_tool_calls chunk) = [].
Proof.
  unfold toolCalls_in, delta_of, choice_of, without_tool_calls; simpl.
  destruct (choices chunk) as [[|c cs]|]; simpl; try reflexivity.
  destruct (delta c); reflexivity.
Qed.

Section ReassemblerFacts.

Variable JSON_parse : string -> option JSON.value.

Lemma for_each_process entries :
  for_each (process_tool_call JSON_parse) entries
  = (filter_map (tool_call_report JSON_parse) entries, inr tt).
Proof.
  induction entries as [|e rest IH]; [reflexivity|].
  cbn [for_each]. rewrite IH. unfold bind, process_tool_call.
  destruct (tool_call_report JSON_parse e) eqn:E; simpl; rewrite E;
    reflexivity.
Qed.

Lemma process_finish_reported reason t :
  process_finish JSON_parse reason t
  = (if String.eqb reason "tool_calls"
     then filter_map (tool_call_report JSON_parse) (Object_entries t)
     else [], inr tt).
Proof.
  unfold process_finish.
  destruct (String.eqb reason "tool_calls"); [apply for_each_process|].
  reflexivity.
Qed.

(** One turn of the loop on a chunk without a finish reason. *)
Lemma consume_streaming token n t chunk rest :
  isCancellationRequested token (S n) = false ->
  has_finish chunk = false ->
  consume JSON_parse token n t (Yield chunk rest)
  = let r := consume JSON_parse token (S n) (track_delta t chunk) rest in
    (reported (report_content chunk) ++ fst r, snd r).
Proof.
  intros C F. cbn [consume]. rewrite C.
  rewrite (report_content_returns chunk). unfold bind.
  unfold has_finish, JS.truthy_opt in F.
  destruct (finish_reason_of chunk) as [reason|].
  - rewrite F.
    destruct (consume JSON_parse token (S n) (track_delta t chunk) rest);
      reflexivity.
  - destruct (consume JSON_parse token (S n) (track_delta t chunk) rest);
      reflexivity.
Qed.

(** The turn of the loop on a chunk with a finish reason: the loop ends. *)
Lemma consume_finish token n t chunk rest reason :
  isCancellationRequested token (S n) = false ->
  finish_reason_of chunk = Some reason ->
  JS.truthy reason = true ->
  consume JSON_parse token n t (Yield chunk rest)
  = (reported (report_content chunk)
     ++ (if String.eqb reason "tool_calls"
         then filter_map (tool_call_report JSON_parse) (Object_entries t)
         else []),
     inr t).
Proof.
  intros C F T. cbn [consume]. rewrite C, F, T.
  rewrite (report_content_returns chunk), process_finish_reported.
  unfold bind, ret. now rewrite app_nil_r.
Qed.

(** The turn of the loop that observes the cancellation: the loop ends. *)
Lemma consume_cancelled token n t chunk rest :
  isCancellationRequested token (S n) = true ->
  consume JSON_parse token n t (Yield chunk rest) = ([], inr t).
Proof. intro C. cbn [consume]. now rewrite C. Qed.

(** The loop over a run of chunks without a finish reason, none of them
    cancelled. *)
Lemma consume_prepend token pre : forall n t s,
  Forall (fun c => has_finish c = false) pre ->
  (forall k, (n < k <= n + List.length pre)%nat ->
             isCancellationRequested token k = false) ->
  consume JSON_parse token n t (prepend pre s)
  = let r := consume JSON_parse token (n + List.length pre)
                     (fold_left track_delta pre t) s in
    (text_fragments pre ++ fst r, snd r).
Proof.
  induction pre as [|c rest IH]; intros n t s F P.
  - simpl. rewrite Nat.add_0_r.
    now destruct (consume JSON_parse token n t s).
  - inversion F as [|? ? Fc Frest]; subst.
    cbn [prepend]. rewrite consume_streaming;
      [| apply P; simpl; lia | exact Fc].
    rewrite IH; [| exact Frest | intros k Hk; apply P; simpl; lia].
    cbn [List.length fold_left]. rewrite Nat.add_succ_r. simpl.
    unfold text_fragments; simpl. now rewrite app_assoc.
Qed.

(** A stream that yields chunks without a finish reason and then the chunk
    that finishes with [tool_calls]. *)
Lemma consume_tool_calls_finish token pre fin rest :
  Forall (fun c => has_finish c = false) pre ->
  finish_reason_of fin = Some "tool_calls" ->
  polls_clear token (S (List.length pre)) = true ->
  consume JSON_parse token 0 [] (prepend pre (Yield fin rest))
  = (text_fragments (pre ++ [fin])
     ++ filter_map (tool_call_report JSON_parse)
                   (Object_entries (tracked pre)),
     inr (tracked pre)).
Proof.
  intros F R P. rewrite polls_clear_spec in P.
  rewrite consume_prepend; [| exact F | intros k Hk; apply P; lia].
  rewrite (consume_finish _ _ _ _ _ "tool_calls");
    [| apply P; simpl; lia | exact R | reflexivity].
  simpl. rewrite text_fragments_app, text_fragments_one.
  now rewrite <- app_assoc.
Qed.

(** A stream that ends after chunks without a finish reason. *)
Lemma consume_unfinished token pre :
  Forall (fun c => has_finish c = false) pre ->
  polls_clear token (List.length pre) = true ->
  consume JSON_parse token 0 [] (prepend pre Done)
  = (text_fragments pre, inr (tracked pre)).
Proof.
  intros F P. rewrite polls_clear_spec in P.
  rewrite consume_prepend; [| exact F | intros k Hk; apply P; lia].
  simpl. now rewrite app_nil_r.
Qed.

Lemma tool_call_report_parseInt k d e :
  tool_call_report JSON_parse (k, d) = Some e -> index e = parseInt_key k.
Proof.
  unfold tool_call_report.
  destruct (id d) as [i|]; [|discriminate].
  destruct (name d) as [n|]; [|discriminate].
  destruct (JS.truthy i && JS.truthy n && JS.truthy (arguments d))%bool;
    [|discriminate].
  destruct (JSON_parse (arguments d)); intro H; injection H as <-; reflexivity.
Qed.

(** A key in decimal notation is read back as the index itself. *)
Lemma tool_call_report_index k d e :
  decimal_key k = true ->
  tool_call_report JSON_parse (k, d) = Some e -> index e = k.
Proof.
  intros D E. rewrite (tool_call_report_parseInt k d e E).
  unfold parseInt_key. now rewrite D.
Qed.


(** The fragments reported for the entries of one index are those reported
    for all entries that carry that index. *)
Lemma reports_at_index i entries :
  Forall (fun e => decimal_key (fst e) = true) entries ->
  filter (fun e => index e =? i)
         (filter_map (tool_call_report JSON_parse) entries)
  = filter_map (tool_call_report JSON_parse)
               (filter (fun e => fst e =? i) entries).
Proof.
  induction 1 as [|[k d] rest D _ IH]; [reflexivity|].
  cbn [filter_map filter fst] in *.
  destruct (tool_call_report JSON_parse (k, d)) as [e|] eqn:E.
  - cbn [filter]. rewrite (tool_call_report_index _ _ _ D E).
    destruct (k =? i); cbn [filter_map];
      [rewrite E, IH; reflexivity | exact IH].
  - destruct (k =? i); cbn [filter_map]; [rewrite E; exact IH | exact IH].
Qed.

Lemma reports_index_in_keys entries e :
  Forall (fun e => decimal_key (fst e) = true) entries ->
  In e (filter_map (tool_call_report JSON_parse) entries) ->
  exists d, In (index e, d) entries.
Proof.
  induction 1 as [|[k d] rest D _ IH]; [intros []|].
  cbn [filter_map].
  destruct (tool_call_report JSON_parse (k, d)) as [e'|] eqn:E.
  - intros [<-|H].
    + exists d. left. now rewrite (tool_call_report_index _ _ _ D E).
    + destruct (IH H) as [d' I]. exists d'. now right.
  - intro H. destruct (IH H) as [d' I]. exists d'. now right.
Qed.

Lemma reports_sorted entries :
  StronglySorted lt_key entries ->
  Forall (fun e => decimal_key (fst e) = true) entries ->
  StronglySorted Z.lt
    (map index (filter_map (tool_call_report JSON_parse) entries)).
Proof.
  induction 1 as [|[k d] rest S IH F]; intro D; [constructor|].
  inversion D as [|? ? Dk Drest]; subst. cbn [fst] in Dk.
  cbn [filter_map].
  destruct (tool_call_report JSON_parse (k, d)) as [e|] eqn:E;
    [|now apply IH].
  cbn [map]. constructor; [now apply IH|].
  rewrite (tool_call_report_index _ _ _ Dk E).
  rewrite Forall_forall in F |- *. intros x Hx.
  apply in_map_iff in Hx. destruct Hx as (e' & <- & He').
  destruct (reports_index_in_keys rest e' Drest He') as [d' I].
  exact (F _ I).
Qed.

Lemma sorted_filter {A : Type} (f : A -> bool) (g : A -> Z) (l : list A) :
  StronglySorted Z.lt (map g l) -> StronglySorted Z.lt (map g (filter f l)).
Proof.
  induction l as [|x rest IH]; simpl; intro S; [constructor|].
  inversion S as [|? ? S' F]; subst.
  destruct (f x); simpl; [|now apply IH].
  constructor; [now apply IH|].
  rewrite Forall_forall in F |- *. intros y Hy.
  apply F. apply in_map_iff in Hy. destruct Hy as (z & <- & Hz).
  apply in_map. apply filter_In in Hz. tauto.
Qed.

End ReassemblerFacts.

(* ================================================================== *)
(** ** The pending tool calls at the finish *)

Lemma overwrite_truthy vals : forall acc x,
  (acc = None \/ JS.truthy_opt acc = true) ->
  fold_left overwrite vals acc = Some x -> JS.truthy x = true.
Proof.
  induction vals as [|v rest IH]; intros acc x I H; simpl in H.
  - subst acc. destruct I as [I|I]; [discriminate | exact I].
  - apply (IH (overwrite acc v) x); [|exact H].
    unfold overwrite. destruct (JS.truthy_opt v) eqn:T; [now right | exact I].
Qed.

(** An id or a name that was set is never the empty string. *)
Lemma last_truthy_truthy vals x :
  last_truthy vals = Some x -> JS.truthy x = true.
Proof. apply overwrite_truthy. now left. Qed.

Lemma filter_andb {A : Type} (f g : A -> bool) (l : list A) :
  filter (fun x => (f x && g x)%bool) l = filter g (filter f l).
Proof.
  induction l as [|x rest IH]; simpl; [reflexivity|].
  destruct (f x); simpl; [destruct (g x); now rewrite IH | exact IH].
Qed.

Lemma filter_none {A : Type} (f : A -> bool) (l : list A) :
  Forall (fun x => f x = false) l -> filter f l = [].
Proof.
  induction 1 as [|x rest Hx _ IH]; simpl; [reflexivity|].
  now rewrite Hx.
Qed.

Lemma Forall_prefix {A : Type} (P : A -> Prop) (l : list A) : forall n,
  Forall P l -> Forall P (firstn n l).
Proof.
  induction l as [|x rest IH]; intros [|n] H; simpl; try constructor.
  - now inversion H.
  - apply IH. now inversion H.
Qed.

Lemma no_tool_call_in_text chunks :
  filter is_tool_call (text_fragments chunks) = [].
Proof.
  apply filter_none.
  eapply Forall_impl; [|apply text_fragments_text].
  intros e [_ H]; exact H.
Qed.

Lemma array_index_decimal k : is_array_index k = true -> decimal_key k = true.
Proof.
  unfold is_array_index, decimal_key. intro H.
  apply andb_true_iff in H. destruct H as [H1 H2].
  apply Z.leb_le in H1. apply Z.ltb_lt in H2. apply Z.ltb_lt.
  change (2 ^ 32 - 1) with 4294967295 in H2.
  change (10 ^ 21) with 1000000000000000000000. lia.
Qed.

Lemma tracked_decimal chunks :
  Forall (fun tc => decimal_key (toolIndex_of tc) = true)
         (flat_map toolCalls_in chunks) ->
  Forall (fun e => decimal_key (fst e) = true)
         (Object_entries (tracked chunks)).
Proof.
  intro H.
  apply (Permutation_Forall (Object_entries_perm (tracked chunks))).
  rewrite Forall_forall in H |- *. intros [k d] I.
  destruct (tracked_key_is_fragment_index k chunks) as (tc & I1 & <-).
  - apply in_map_iff. now exists (k, d).
  - simpl. now apply H.
Qed.

Lemma tracked_array_indices chunks :
  Forall (fun tc => is_array_index (toolIndex_of tc) = true)
         (flat_map toolCalls_in chunks) ->
  Forall (fun e => is_array_index (fst e) = true) (tracked chunks).
Proof.
  intro H. rewrite Forall_forall in H |- *. intros [k d] I.
  destruct (tracked_key_is_fragment_index k chunks) as (tc & I1 & <-).
  - apply in_map_iff. now exists (k, d).
  - simpl. now apply H.
Qed.

Section FinishFacts.

Variable JSON_parse : string -> option JSON.value.

(** What is reported at one index when the stream finishes with
    [tool_calls]: what the pending call of that index yields. *)
Lemma reports_of_pending i d chunks :
  Forall (fun tc => decimal_key (toolIndex_of tc) = true)
         (flat_map toolCalls_in chunks) ->
  pending (fragments_at i chunks) = Some d ->
  filter (fun e => index e =? i)
         (filter_map (tool_call_report JSON_parse)
                     (Object_entries (tracked chunks)))
  = match tool_call_report JSON_parse (i, d) with
    | Some e => [e]
    | None => []
    end.
Proof.
  intros D P. rewrite <- lookup_tracked in P.
  rewrite reports_at_index by now apply tracked_decimal.
  rewrite (Object_entries_unique i d _ (NoDup_keys_tracked chunks) P).
  cbn [filter_map]. now destruct (tool_call_report JSON_parse (i, d)).
Qed.

(** No fragment is reported at the finish for an index that was never
    tracked. *)
Lemma reports_of_untracked i chunks :
  Forall (fun tc => decimal_key (toolIndex_of tc) = true)
         (flat_map toolCalls_in chunks) ->
  pending (fragments_at i chunks) = None ->
  filter (fun e => index e =? i)
         (filter_map (tool_call_report JSON_parse)
                     (Object_entries (tracked chunks)))
  = [].
Proof.
  intros D P. rewrite <- lookup_tracked in P.
  rewrite reports_at_index by now apply tracked_decimal.
  apply lookup_None_iff in P.
  assert (N : ~ In i (map fst (Object_entries (tracked chunks)))).
  { intro H. apply P.
    apply (Permutation_in _ (Permutation_map fst
             (Permutation_sym (Object_entries_perm (tracked chunks))))).
    exact H. }
  now rewrite (filter_key_absent i _ N).
Qed.

Lemma reports_ascending chunks :
  Forall (fun tc => is_array_index (toolIndex_of tc) = true)
         (flat_map toolCalls_in chunks) ->
  StronglySorted Z.lt
    (map index (filter_map (tool_call_report JSON_parse)
                           (Object_entries (tracked chunks)))).
Proof.
  intro A. apply reports_sorted.
  - apply Object_entries_sorted.
    + apply NoDup_keys_tracked.
    + now apply tracked_array_indices.
  - apply tracked_decimal.
    eapply Forall_impl; [|exact A].
    intros tc. apply array_index_decimal.
Qed.

End FinishFacts.

(* ================================================================== *)
(** ** The stream reassembler *)

(** The stream of the specification's example: the fragments
    [{"a":] and [1}] for tool index 0 with id x and name f, then the
    [tool_calls] finish. *)
Example reassemble_valid_arguments :
  consume JSON.parse never_cancelled 0 []
    (prepend [ tool_chunk (Some 0) (Some "x") (Some "f") (Some args_head);
               tool_chunk None None None (Some "1}") ]
             (Yield (finish_chunk "tool_calls") Done))
  = ([ {| index := 0;
          part := LanguageModelToolCallPart "x" "f"
                    (JSON.Object [("a", JSON.Number "1")]) |} ],
     inr [ (0, {| id := Some "x"; name := Some "f";
                  arguments := (args_head ++ "1}")%string |}) ]).
Proof. reflexivity. Qed.

(** Two pending calls tracked in the order 1, 0 are reported in the order
    0, 1; text is reported as it arrives. *)
Example reassemble_two_calls :
  reported
    (consume JSON.parse never_cancelled 0 []
       (prepend [ tool_chunk (Some 1) (Some "y") (Some "g") (Some "[]");
                  text_chunk "hello";
                  tool_chunk (Some 0) (Some "x") (Some "f") (Some "{}") ]
                (Yield (finish_chunk "tool_calls") Done)))
  = [ {| index := 0; part := LanguageModelTextPart "hello" |};
      {| index := 0; part := LanguageModelToolCallPart "x" "f" (JSON.Object []) |};
      {| index := 1; part := LanguageModelToolCallPart "y" "g" (JSON.Array []) |} ].
Proof. reflexivity. Qed.

(** Keys read back: [123] from [123]; [1] from [1e+21]; [-2] from
    [-2e+21]; [1] from [1e+23], the key of the Number 99999999999999991611392;
    [1] from [1.1805916207174113e+21], the key of 2^70. *)
Example parseInt_of_keys :
  map parseInt_key
      [123; 10 ^ 21 - 1; 10 ^ 21; - (2 * 10 ^ 21); 99999999999999991611392;
       2 ^ 70; 9 * 10 ^ 21]
  = [123; 10 ^ 21 - 1; 1; -2; 1; 1; 9].
Proof. vm_compute. reflexivity. Qed.

(** A tool index of 10^21 has the key [1e+21], which [parseInt] reads as 1:
    its call is reported at index 1, next to the call of index 1. *)
Example reassemble_exponent_key :
  reported
    (consume JSON.parse never_cancelled 0 []
       (prepend [ tool_chunk (Some 1) (Some "x") (Some "f") (Some "{}");
                  tool_chunk (Some (10 ^ 21)) (Some "y") (Some "g") (Some "[]") ]
                (Yield (finish_chunk "tool_calls") Done)))
  = [ {| index := 1; part := LanguageModelToolCallPart "x" "f" (JSON.Object []) |};
      {| index := 1; part := LanguageModelToolCallPart "y" "g" (JSON.Array []) |} ].
Proof. vm_compute. reflexivity. Qed.

(** C1, as stated, fails: the completed tool calls are reported in the order
    of [Object.entries], which is ascending only among array indices.  With
    calls at the indices -1 and 0 the call of index 0 is reported first and
    the call of index -1 after it. *)
Lemma tool_call_order_counterexample :
  ~ (forall (JSON_parse : string -> option JSON.value)
            token pre fin rest i x f v,
        JSON_parse "" = None ->
        Forall (fun c => has_finish c = false) pre ->
        finish_reason_of fin = Some "tool_calls" ->
        polls_clear token (S (List.length pre)) = true ->
        last_truthy (map tc_id (fragments_at i pre)) = Some x ->
        last_truthy (map function_name (fragments_at i pre)) = Some f ->
        JSON_parse (String.concat ""
                      (filter_map function_arguments (fragments_at i pre)))
        = Some v ->
        filter (fun e => ((index e =? i) && is_tool_call e)%bool)
               (reported (consume JSON_parse token 0 []
                                  (prepend pre (Yield fin rest))))
        = [ {| index := i; part := LanguageModelToolCallPart x f v |} ]
        /\ StronglySorted Z.lt
             (map index
                (filter is_tool_call
                   (reported (consume JSON_parse token 0 []
                                      (prepend pre (Yield fin rest))))))).
Proof.
  intro H.
  destruct (H JSON.parse never_cancelled
              [ tool_chunk (Some (-1)) (Some "n") (Some "h") (Some "{}");
                tool_chunk (Some 0) (Some "x") (Some "f") (Some "{}") ]
              (finish_chunk "tool_calls") Done 0 "x" "f" (JSON.Object []))
    as [_ S]; try reflexivity.
  - repeat constructor.
  - vm_compute in S. inversion S as [|? ? _ F]. inversion F as [|? ? L _].
    discriminate L.
Qed.

(** C1, amended. For a stream whose tool indices are below 10^21 in absolute
    value (their keys are then read back by [parseInt] as the indices
    themselves): when the fragments delivered for a tool index before the
    finish add up to an id, a name and argument text that parses as JSON, and
    the stream then finishes with [tool_calls], exactly one completed tool
    call is reported for that index, with that id, that name and the parsed
    arguments.  Completed tool calls are reported only at the finish: what is
    reported up to any point of the accumulation holds none, and the whole
    output is the text fragments followed by the fragments of the finish;
    these come in ascending order of the tool index when all tool indices are
    array indices (integers from 0 to 2^32 - 2). *)
Theorem tool_call_completed_at_finish
        (JSON_parse : string -> option JSON.value)
        token pre fin rest i x f v :
  JSON_parse "" = None ->
  Forall (fun tc => decimal_key (toolIndex_of tc) = true)
         (flat_map toolCalls_in pre) ->
  Forall (fun c => has_finish c = false) pre ->
  finish_reason_of fin = Some "tool_calls" ->
  polls_clear token (S (List.length pre)) = true ->
  last_truthy (map tc_id (fragments_at i pre)) = Some x ->
  last_truthy (map function_name (fragments_at i pre)) = Some f ->
  JSON_parse (String.concat ""
                (filter_map function_arguments (fragments_at i pre)))
  = Some v ->
  filter (fun e => ((index e =? i) && is_tool_call e)%bool)
         (reported (consume JSON_parse token 0 []
                            (prepend pre (Yield fin rest))))
  = [ {| index := i; part := LanguageModelToolCallPart x f v |} ]
  /\ (forall n,
        filter is_tool_call
               (reported (consume JSON_parse token 0 []
                                  (prepend (firstn n pre) Done))) = [])
  /\ exists finals,
       reported (consume JSON_parse token 0 [] (prepend pre (Yield fin rest)))
       = text_fragments (pre ++ [fin]) ++ finals
       /\ filter is_tool_call (text_fragments (pre ++ [fin])) = []
       /\ (Forall (fun tc => is_array_index (toolIndex_of tc) = true)
                  (flat_map toolCalls_in pre) ->
           StronglySorted Z.lt (map index finals)).
Proof.
  intros PE D F R P Hid Hname Hargs.
  set (frags := fragments_at i pre) in *.
  assert (Pd : pending frags
               = Some {| id := Some x; name := Some f;
                         arguments :=
                           String.concat "" (filter_map function_arguments frags) |}).
  { unfold pending. destruct frags; [discriminate Hid|].
    now rewrite Hid, Hname. }
  assert (Di : decimal_key i = true).
  { assert (N : frags <> []) by (intro E; rewrite E in Hid; discriminate Hid).
    destruct frags as [|tc l] eqn:Ef; [congruence|].
    assert (I : In tc (fragments_at i pre))
      by (fold frags; rewrite Ef; now left).
    unfold fragments_at in I. apply filter_In in I. destruct I as [I1 I2].
    apply Z.eqb_eq in I2. rewrite <- I2.
    rewrite Forall_forall in D. now apply D. }
  assert (Rp : tool_call_report JSON_parse
                 (i, {| id := Some x; name := Some f;
                        arguments :=
                          String.concat "" (filter_map function_arguments frags) |})
               = Some {| index := i; part := LanguageModelToolCallPart x f v |}).
  { unfold tool_call_report; cbn [id name arguments].
    rewrite (last_truthy_truthy _ _ Hid), (last_truthy_truthy _ _ Hname), Hargs.
    unfold parseInt_key. rewrite Di.
    destruct (String.concat "" (filter_map function_arguments frags));
      [congruence | reflexivity]. }
  rewrite (consume_tool_calls_finish JSON_parse token pre fin rest F R P).
  unfold reported; cbn [fst].
  split; [|split].
  - rewrite filter_app, !filter_andb.
    rewrite (reports_of_pending JSON_parse i _ pre D Pd), Rp.
    rewrite (filter_none _ (filter _ (text_fragments _))).
    + reflexivity.
    + apply Forall_forall. intros e He. apply filter_In in He.
      destruct He as [He _].
      pose proof (text_fragments_text (pre ++ [fin])) as T.
      rewrite Forall_forall in T. now apply T.
  - intro n.
    rewrite (consume_unfinished JSON_parse token (firstn n pre)).
    + apply no_tool_call_in_text.
    + now apply Forall_prefix.
    + apply (polls_clear_le token (S (List.length pre))); [|exact P].
      rewrite length_firstn. lia.
  - eexists. split; [reflexivity|]. split.
    + apply no_tool_call_in_text.
    + apply reports_ascending.
Qed.

Lemma tool_call_completed_at_finish_witness :
  filter (fun e => ((index e =? 0) && is_tool_call e)%bool)
         (reported
            (consume JSON.parse never_cancelled 0 []
               (prepend
                  [ tool_chunk (Some 0) (Some "x") (Some "f") (Some args_head);
                    tool_chunk None None None (Some "1}") ]
                  (Yield (finish_chunk "tool_calls") Done))))
  = [ {| index := 0;
         part := LanguageModelToolCallPart "x" "f"
                   (JSON.Object [("a", JSON.Number "1")]) |} ].
Proof.
  refine (proj1 (tool_call_completed_at_finish
                   JSON.parse never_cancelled
                   [ tool_chunk (Some 0) (Some "x") (Some "f") (Some args_head);
                     tool_chunk None None None (Some "1}") ]
                   (finish_chunk "tool_calls") Done 0 "x" "f"
                   (JSON.Object [("a", JSON.Number "1")])
                   eq_refl _ _ eq_refl eq_refl eq_refl eq_refl eq_refl)).
  - repeat constructor.
  - repeat constructor.
Defined.

(** Keys that are not array indices come after the array indices, in the
    order of their creation. *)
Example entries_of_a_negative_index :
  map fst (Object_entries
             (tracked [ tool_chunk (Some (-1)) (Some "n") (Some "h") (Some "{}");
                        tool_chunk (Some 3) (Some "y") (Some "g") (Some "{}");
                        tool_chunk (Some 0) (Some "x") (Some "f") (Some "{}") ]))
  = [0; 3; -1].
Proof. reflexivity. Qed.

(** The stream of the specification's example with malformed arguments. *)
Example reassemble_malformed_arguments :
  reported
    (consume JSON.parse never_cancelled 0 []
       (prepend [ tool_chunk (Some 0) (Some "x") (Some "f") (Some "{a:1");
                  tool_chunk (Some 0) None None (Some "}") ]
                (Yield (finish_chunk "tool_calls") Done)))
  = [ {| index := 0; part := LanguageModelTextPart "[Tool Call: f({a:1})]" |} ].
Proof. reflexivity. Qed.

Lemma pending_index_decimal i d chunks :
  Forall (fun tc => decimal_key (toolIndex_of tc) = true)
         (flat_map toolCalls_in chunks) ->
  pending (fragments_at i chunks) = Some d ->
  decimal_key i = true.
Proof.
  intros D P. unfold pending in P.
  destruct (fragments_at i chunks) as [|tc l] eqn:E; [discriminate P|].
  assert (I : In tc (fragments_at i chunks)) by (rewrite E; now left).
  unfold fragments_at in I. apply filter_In in I. destruct I as [I1 I2].
  apply Z.eqb_eq in I2. rewrite <- I2.
  rewrite Forall_forall in D. now apply D.
Qed.

(** C5, as stated, fails: the fallback text is not [name(argumentsBuffer)]
    alone, it is wrapped as [[Tool Call: name(argumentsBuffer)]].  For the
    fragments [{a:1] and [}] of the call f, no fragment with the text
    [f({a:1})] is reported. *)
Lemma fallback_text_counterexample :
  ~ (forall (JSON_parse : string -> option JSON.value)
            token pre fin rest i x f,
        Forall (fun c => has_finish c = false) pre ->
        finish_reason_of fin = Some "tool_calls" ->
        polls_clear token (S (List.length pre)) = true ->
        last_truthy (map tc_id (fragments_at i pre)) = Some x ->
        last_truthy (map function_name (fragments_at i pre)) = Some f ->
        String.concat "" (filter_map function_arguments (fragments_at i pre))
        <> "" ->
        JSON_parse (String.concat ""
                      (filter_map function_arguments (fragments_at i pre)))
        = None ->
        In {| index := i;
              part := LanguageModelTextPart
                        (spec_fallback_text f
                           (String.concat ""
                              (filter_map function_arguments
                                          (fragments_at i pre)))) |}
           (reported (consume JSON_parse token 0 []
                              (prepend pre (Yield fin rest))))).
Proof.
  intro H.
  specialize (H JSON.parse never_cancelled
                [ tool_chunk (Some 0) (Some "x") (Some "f") (Some "{a:1");
                  tool_chunk (Some 0) None None (Some "}") ]
                (finish_chunk "tool_calls") Done 0 "x" "f").
  assert (I : In {| index := 0; part := LanguageModelTextPart "f({a:1})" |}
                 [ {| index := 0;
                      part := LanguageModelTextPart "[Tool Call: f({a:1})]" |} ]).
  { apply H; try reflexivity.
    - repeat constructor.
    - discriminate. }
  destruct I as [I|[]]. discriminate I.
Qed.

(** C5, amended. For a stream whose tool indices are below 10^21 in absolute
    value (their keys are then read back by [parseInt] as the indices
    themselves): when the fragments delivered for a tool index add up to an
    id, a name and non-empty argument text that does not parse as JSON, the
    finish with [tool_calls] reports for that index exactly one fragment: a
    text part at that index whose text is
    [[Tool Call: name(argumentsBuffer)]]. *)
Theorem parse_failure_fallback
        (JSON_parse : string -> option JSON.value)
        token pre fin rest i x f :
  Forall (fun tc => decimal_key (toolIndex_of tc) = true)
         (flat_map toolCalls_in pre) ->
  Forall (fun c => has_finish c = false) pre ->
  finish_reason_of fin = Some "tool_calls" ->
  polls_clear token (S (List.length pre)) = true ->
  last_truthy (map tc_id (fragments_at i pre)) = Some x ->
  last_truthy (map function_name (fragments_at i pre)) = Some f ->
  String.concat "" (filter_map function_arguments (fragments_at i pre)) <> "" ->
  JSON_parse (String.concat ""
                (filter_map function_arguments (fragments_at i pre)))
  = None ->
  exists finals,
    reported (consume JSON_parse token 0 [] (prepend pre (Yield fin rest)))
    = text_fragments (pre ++ [fin]) ++ finals
    /\ filter (fun e => index e =? i) finals
       = [ {| index := i;
              part := LanguageModelTextPart
                        ("[Tool Call: " ++ f ++ "("
                         ++ String.concat ""
                              (filter_map function_arguments
                                          (fragments_at i pre))
                         ++ ")]")%string |} ].
Proof.
  intros D F R P Hid Hname Hne Hargs.
  set (frags := fragments_at i pre) in *.
  assert (Pd : pending frags
               = Some {| id := Some x; name := Some f;
                         arguments :=
                           String.concat "" (filter_map function_arguments frags) |}).
  { unfold pending. destruct frags; [discriminate Hid|].
    now rewrite Hid, Hname. }
  rewrite (consume_tool_calls_finish JSON_parse token pre fin rest F R P).
  unfold reported; cbn [fst].
  eexists. split; [reflexivity|].
  rewrite (reports_of_pending JSON_parse i _ pre D Pd).
  unfold tool_call_report; cbn [id name arguments].
  unfold parseInt_key. rewrite (pending_index_decimal i _ pre D Pd).
  rewrite (last_truthy_truthy _ _ Hid), (last_truthy_truthy _ _ Hname), Hargs.
  destruct (String.concat "" (filter_map function_arguments frags));
    [congruence | reflexivity].
Qed.

Lemma parse_failure_fallback_witness :
  exists finals,
    reported
      (consume JSON.parse never_cancelled 0 []
         (prepend [ text_chunk "calling";
                    tool_chunk (Some 0) (Some "x") (Some "f") (Some "{a:1");
                    tool_chunk (Some 0) None None (Some "}") ]
                  (Yield (finish_chunk "tool_calls") Done)))
    = text_fragments
        ([ text_chunk "calling";
           tool_chunk (Some 0) (Some "x") (Some "f") (Some "{a:1");
           tool_chunk (Some 0) None None (Some "}") ]
         ++ [finish_chunk "tool_calls"]) ++ finals
    /\ filter (fun e => index e =? 0) finals
       = [ {| index := 0;
              part := LanguageModelTextPart "[Tool Call: f({a:1})]" |} ].
Proof.
  refine (parse_failure_fallback
            JSON.parse never_cancelled
            [ text_chunk "calling";
              tool_chunk (Some 0) (Some "x") (Some "f") (Some "{a:1");
              tool_chunk (Some 0) None None (Some "}") ]
            (finish_chunk "tool_calls") Done 0 "x" "f"
            _ _ eq_refl eq_refl eq_refl eq_refl _ eq_refl).
  - repeat constructor.
  - repeat constructor.
  - discriminate.
Defined.


(** A pending call without a name: nothing is reported for index 0, the
    call of index 1 is reported. *)
Example reassemble_missing_name :
  consume JSON.parse never_cancelled 0 []
    (prepend [ tool_chunk (Some 0) (Some "x") None (Some "{}");
               tool_chunk (Some 1) (Some "y") (Some "g") (Some "{}") ]
             (Yield (finish_chunk "tool_calls") Done))
  = ([ {| index := 1;
          part := LanguageModelToolCallPart "y" "g" (JSON.Object []) |} ],
     inr [ (0, {| id := Some "x"; name := None; arguments := "{}" |});
           (1, {| id := Some "y"; name := Some "g"; arguments := "{}" |}) ]).
Proof. reflexivity. Qed.




(** Cancellation observed when the third chunk arrives: the text of the
    first chunk stands, the pending call is not reported. *)
Example reassemble_cancelled :
  reported
    (consume JSON.parse (cancelled_from 3) 0 []
       (prepend [ text_chunk "hel";
                  tool_chunk (Some 0) (Some "x") (Some "f") (Some "{}") ]
                (Yield (text_chunk "lo")
                       (Yield (finish_chunk "tool_calls") Done))))
  = [ {| index := 0; part := LanguageModelTextPart "hel" |} ].
Proof. reflexivity. Qed.

(** C9. When the cancellation is observed before any chunk with a finish
    reason has been processed, the loop ends there without an error: what
    has been reported is the text of the chunks processed before, the same
    as without the cancellation; it holds no tool call, and nothing of the
    chunk at hand or of the chunks after it is reported. *)
Theorem cancellation_stops_reassembly
        (JSON_parse : string -> option JSON.value)
        token pre chunk rest :
  Forall (fun c => has_finish c = false) pre ->
  polls_clear token (List.length pre) = true ->
  isCancellationRequested token (S (List.length pre)) = true ->
  consume JSON_parse token 0 [] (prepend pre (Yield chunk rest))
  = (text_fragments pre, inr (tracked pre))
  /\ text_fragments pre
     = reported (consume JSON_parse never_cancelled 0 [] (prepend pre Done))
  /\ Forall (fun e => index e = 0 /\ is_tool_call e = false)
            (text_fragments pre).
Proof.
  intros F P C. split; [|split].
  - rewrite polls_clear_spec in P.
    rewrite consume_prepend; [| exact F | intros k Hk; apply P; lia].
    rewrite consume_cancelled; [| exact C].
    simpl. now rewrite app_nil_r.
  - rewrite consume_unfinished; [reflexivity | exact F |].
    apply polls_clear_spec. reflexivity.
  - apply text_fragments_text.
Qed.

Lemma cancellation_stops_reassembly_witness :
  consume JSON.parse (cancelled_from 3) 0 []
    (prepend [ text_chunk "hel";
               tool_chunk (Some 0) (Some "x") (Some "f") (Some "{}") ]
             (Yield (text_chunk "lo")
                    (Yield (finish_chunk "tool_calls") Done)))
  = (text_fragments [ text_chunk "hel";
                      tool_chunk (Some 0) (Some "x") (Some "f") (Some "{}") ],
     inr (tracked [ text_chunk "hel";
                    tool_chunk (Some 0) (Some "x") (Some "f") (Some "{}") ])).
Proof.
  refine (proj1 (cancellation_stops_reassembly
                   JSON.parse (cancelled_from 3)
                   [ text_chunk "hel";
                     tool_chunk (Some 0) (Some "x") (Some "f") (Some "{}") ]
                   (text_chunk "lo")
                   (Yield (finish_chunk "tool_calls") Done)
                   _ eq_refl eq_refl)).
  repeat constructor.
Defined.

Lemma consume_without_tool_calls
      (JSON_parse : string -> option JSON.value) token fin rest :
  has_finish fin = true ->
  forall pre n t,
    consume JSON_parse token n t (prepend pre (Yield fin rest))
    = consume JSON_parse token n t
              (prepend pre (Yield (without_tool_calls fin) rest)).
Proof.
  intros H pre. induction pre as [|c pre' IH]; intros n t.
  - cbn [prepend consume].
    rewrite report_content_without_tool_calls,
            finish_reason_without_tool_calls.
    destruct (isCancellationRequested token (S n)); [reflexivity|].
    unfold has_finish, JS.truthy_opt in H.
    destruct (finish_reason_of fin) as [reason|]; [|discriminate H].
    now rewrite H.
  - cbn [prepend consume].
    destruct (isCancellationRequested token (S n)); [reflexivity|].
    destruct (finish_reason_of c) as [reason|];
      [destruct (JS.truthy reason); [reflexivity|]|];
      now rewrite IH.
Qed.

(** A finish chunk that also carries the last argument fragment: the
    fragment is not tracked, so the arguments stay unfinished and the
    fallback text is reported. *)
Example reassemble_fragment_in_finish_chunk :
  consume JSON.parse never_cancelled 0 []
    (prepend [ tool_chunk (Some 0) (Some "x") (Some "f") (Some args_head) ]
       (Yield (finishing_tool_chunk "tool_calls" "1}") Done))
  = ([ {| index := 0;
          part := LanguageModelTextPart
                    ("[Tool Call: f(" ++ args_head ++ ")]")%string |} ],
     inr [ (0, {| id := Some "x"; name := Some "f";
                  arguments := args_head |}) ]).
Proof. reflexivity. Qed.

(** C10. A chunk that carries a finish reason ends the loop before its
    tool-call fragments are looked at: the fragments reported and the
    tracked tool calls that the loop leaves are those of the same stream with
    the fragments of that chunk taken away, and the tracked tool calls are
    those of the chunks before it. *)
Theorem finish_chunk_fragments_ignored
        (JSON_parse : string -> option JSON.value)
        token pre fin rest :
  has_finish fin = true ->
  consume JSON_parse token 0 [] (prepend pre (Yield fin rest))
  = consume JSON_parse token 0 []
            (prepend pre (Yield (without_tool_calls fin) rest))
  /\ toolCalls_in (without_tool_calls fin) = []
  /\ (Forall (fun c => has_finish c = false) pre ->
      polls_clear token (S (List.length pre)) = true ->
      outcome (consume JSON_parse token 0 [] (prepend pre (Yield fin rest)))
      = inr (tracked pre)).
Proof.
  intro H. split; [|split].
  - now apply consume_without_tool_calls.
  - apply toolCalls_in_without_tool_calls.
  - intros F P. rewrite polls_clear_spec in P.
    rewrite consume_prepend; [| exact F | intros k Hk; apply P; lia].
    unfold has_finish, JS.truthy_opt in H.
    destruct (finish_reason_of fin) as [reason|] eqn:R; [|discriminate H].
    rewrite (consume_finish _ _ _ _ _ _ reason);
      [reflexivity | apply P; simpl; lia | exact R | exact H].
Qed.

Lemma finish_chunk_fragments_ignored_witness :
  let fin := finishing_tool_chunk "tool_calls" "1}" in
  consume JSON.parse never_cancelled 0 []
    (prepend [ tool_chunk (Some 0) (Some "x") (Some "f") (Some args_head) ]
             (Yield fin Done))
  = consume JSON.parse never_cancelled 0 []
      (prepend [ tool_chunk (Some 0) (Some "x") (Some "f") (Some args_head) ]
               (Yield (without_tool_calls fin) Done)).
Proof.
  intro fin.
  exact (proj1 (finish_chunk_fragments_ignored
                  JSON.parse never_cancelled
                  [ tool_chunk (Some 0) (Some "x") (Some "f") (Some args_head) ]
                  fin Done eq_refl)).
Defined.

(* ================================================================== *)
(** ** The chat-response boundary *)

(** A stream that fails after chunks without a finish reason: the loop
    throws after the text of those chunks has been reported. *)
Lemma consume_failing (JSON_parse : string -> option JSON.value)
      token pre e :
  Forall (fun c => has_finish c = false) pre ->
  polls_clear token (List.length pre) = true ->
  consume JSON_parse token 0 [] (prepend pre (Fail e))
  = (text_fragments pre, inl e).
Proof.
  intros F P. rewrite polls_clear_spec in P.
  rewrite consume_prepend; [| exact F | intros k Hk; apply P; lia].
  simpl. now rewrite app_nil_r.
Qed.

Section Boundary.

Variable JSON_parse : string -> option JSON.value.
Variable JSON_stringify : JSON.value -> string.
Variable create :
  OpenAI -> ChatCompletionCreateParamsStreaming -> Thrown + Stream.

(** The [try] block with its [catch]: what is reported and how it ends. *)
Lemma exchange_caught client model messages options token :
  try_catch (exchange JSON_parse JSON_stringify create client model messages
                      options token)
            (report_error JSON_stringify)
  = match translate JSON_stringify messages with
    | [] => ([ {| index := 0;
                  part := LanguageModelTextPart no_messages_message |} ],
             inr tt)
    | openaiMessages =>
        match create client (requestParams model openaiMessages options) with
        | inl e => caught JSON_stringify [] e
        | inr stream =>
            match consume JSON_parse token 0 [] stream with
            | (out, inl e) => caught JSON_stringify out e
            | (out, inr _) => (out, inr tt)
            end
        end
    end.
Proof.
  unfold exchange, caught.
  destruct (translate JSON_stringify messages) as [|m ms]; [reflexivity|].
  cbn [List.length Nat.eqb].
  destruct (create client (requestParams model (m :: ms) options))
    as [e|stream].
  - unfold await, try_catch, report_error, report, bind; cbn.
    destruct (error_text JSON_stringify e); reflexivity.
  - unfold await. cbn [bind].
    destruct (consume JSON_parse token 0 [] stream) as [out [e|t]];
      unfold try_catch, report_error, report, ret, await, bind; cbn.
    + destruct (error_text JSON_stringify e); cbn; rewrite ?app_nil_r;
        reflexivity.
    + now rewrite app_nil_r.
Qed.

End Boundary.

(** No client is made exactly when no key is found. *)
Lemma ensureClient_none env this :
  fst (ensureClient env this) = None <-> getApiKey env = None.
Proof.
  assert (K : forall k, getApiKey env = Some k -> JS.truthy k = true).
  { unfold getApiKey, JS.truthy_opt. intros k.
    destruct (V0_API_KEY env) as [a|]; [destruct (JS.truthy a) eqn:Ta|].
    - intro H; injection H as <-; exact Ta.
    - destruct (config_apiKey env) as [b|]; [destruct (JS.truthy b) eqn:Tb|];
        try discriminate. intro H; injection H as <-; exact Tb.
    - destruct (config_apiKey env) as [b|]; [destruct (JS.truthy b) eqn:Tb|];
        try discriminate. intro H; injection H as <-; exact Tb. }
  unfold ensureClient.
  destruct (getApiKey env) as [k|] eqn:E.
  - rewrite (K k eq_refl). cbn [JS.truthy_opt].
    destruct (client this) as [c|]; cbn [is_defined andb fst].
    + destruct (strict_eq (lastApiKey this) (Some k)); cbn [andb fst];
        [rewrite (K k eq_refl)|]; cbn [fst]; split; discriminate.
    + split; discriminate.
  - cbn [JS.truthy_opt]. rewrite !andb_false_r. cbn [fst]. tauto.
Qed.

(** An upstream that answers 401: the error is reported, nothing is
    thrown. *)
Example response_to_unauthorized :
  fst (provideLanguageModelChatResponse
         JSON.parse JSON.stringify
         (fun _ _ =>
            inl (ErrorInstance
                   {| err_constructor_name := "AuthenticationError";
                      err_message := "401 Unauthorized";
                      err_status := Some "401";
                      err_code := None;
                      err_type := None |}))
         {| V0_API_KEY := Some "key"; config_apiKey := None |}
         {| client := None; lastApiKey := None |}
         (getChatModelInfo "v0-1.5-md" "md" 128000 64000 true)
         [ {| msg_role := User; msg_content := Text "hi" |} ]
         {| modelOptions := None; tools := None; toolMode := None |}
         never_cancelled)
  = ([ {| index := 0;
          part :=
            LanguageModelTextPart
              ("Error calling v0.dev API: "
               ++ "❌ Invalid API key. Please check your v0.dev API key and try again."
               ++ LF ++ LF
               ++ "Get your API key at: https://v0.dev/chat/settings/keys"
               ++ LF ++ LF ++ "Debug info:" ++ LF
               ++ "- Error type: AuthenticationError" ++ LF
               ++ "- Message: 401 Unauthorized" ++ LF
               ++ "- HTTP Status: 401")%string |} ],
     inr tt).
Proof. reflexivity. Qed.

(** A stream that breaks after its first text: the text stands, the error
    is reported after it, nothing is thrown. *)
Example response_to_broken_stream :
  fst (provideLanguageModelChatResponse
         JSON.parse JSON.stringify
         (fun _ _ =>
            inr (Yield (text_chunk "par")
                       (Fail (NonError (Data (JSON.Str "boom"))))))
         {| V0_API_KEY := None; config_apiKey := Some "key" |}
         {| client := None; lastApiKey := None |}
         (getChatModelInfo "v0-1.5-md" "md" 128000 64000 true)
         [ {| msg_role := User; msg_content := Text "hi" |} ]
         {| modelOptions := None; tools := None; toolMode := None |}
         never_cancelled)
  = ([ {| index := 0; part := LanguageModelTextPart "par" |};
       {| index := 0;
          part :=
            LanguageModelTextPart
              ("Error calling v0.dev API: Unknown error occurred"
               ++ LF ++ LF ++ "Debug info:" ++ LF
               ++ "- Non-Error object: " ++ JS.DQ ++ "boom" ++ JS.DQ)%string |} ],
     inr tt).
Proof. reflexivity. Qed.

(** A stream that throws a BigInt in the middle: the [catch] block throws
    while it serializes the value, nothing more is reported and the call
    rejects. *)
Example response_to_thrown_bigint :
  fst (provideLanguageModelChatResponse
         JSON.parse JSON.stringify
         (fun _ _ =>
            inr (Yield (text_chunk "par") (Fail (NonError (BigInt 10)))))
         {| V0_API_KEY := Some "key"; config_apiKey := None |}
         {| client := None; lastApiKey := None |}
         (getChatModelInfo "v0-1.5-md" "md" 128000 64000 true)
         [ {| msg_role := User; msg_content := Text "hi" |} ]
         {| modelOptions := None; tools := None; toolMode := None |}
         never_cancelled)
  = ([ {| index := 0; part := LanguageModelTextPart "par" |} ],
     inl (ErrorInstance
            {| err_constructor_name := "TypeError";
               err_message := "Do not know how to serialize a BigInt";
               err_status := None; err_code := None; err_type := None |})).
Proof. reflexivity. Qed.

(** C2. The call does throw: when the value thrown in the [try] block is
    not an [Error] and [JSON.stringify] throws on it (a BigInt, an object
    that refers to itself), the [catch] block throws while it builds its
    text: no text part is reported for the failure and the error of
    [JSON.stringify] leaves the call. *)
Theorem chat_response_rejects_unserializable
        (JSON_parse : string -> option JSON.value)
        (JSON_stringify : JSON.value -> string)
        (create : OpenAI -> ChatCompletionCreateParamsStreaming
                  -> Thrown + Stream)
        env this model messages options token client stream out v thrown :
  fst (ensureClient env this) = Some client ->
  translate JSON_stringify messages <> [] ->
  create client
         (requestParams model (translate JSON_stringify messages) options)
  = inr stream ->
  consume JSON_parse token 0 [] stream = (out, inl (NonError v)) ->
  stringify_thrown JSON_stringify v = inl thrown ->
  fst (provideLanguageModelChatResponse
         JSON_parse JSON_stringify create
         env this model messages options token)
  = (out, inl thrown).
Proof.
  intros C T R L S.
  unfold provideLanguageModelChatResponse.
  destruct (ensureClient env this) as [[c|] this']; cbn [fst] in *;
    [|discriminate C].
  injection C as ->. rewrite exchange_caught.
  destruct (translate JSON_stringify messages) as [|m ms]; [congruence|].
  rewrite R, L. unfold caught, error_text. now rewrite S.
Qed.

Lemma chat_response_rejects_unserializable_witness :
  fst (provideLanguageModelChatResponse
         JSON.parse JSON.stringify
         (fun _ _ =>
            inr (Yield (text_chunk "par") (Fail (NonError Cyclic))))
         {| V0_API_KEY := Some "key"; config_apiKey := None |}
         {| client := None; lastApiKey := None |}
         (getChatModelInfo "v0-1.5-md" "md" 128000 64000 true)
         [ {| msg_role := User; msg_content := Text "hi" |} ]
         {| modelOptions := None; tools := None; toolMode := None |}
         never_cancelled)
  = ([ {| index := 0; part := LanguageModelTextPart "par" |} ],
     inl (ErrorInstance
            {| err_constructor_name := "TypeError";
               err_message := "Converting circular structure to JSON";
               err_status := None; err_code := None; err_type := None |})).
Proof.
  refine (chat_response_rejects_unserializable
            JSON.parse JSON.stringify
            (fun _ _ =>
               inr (Yield (text_chunk "par") (Fail (NonError Cyclic))))
            {| V0_API_KEY := Some "key"; config_apiKey := None |}
            {| client := None; lastApiKey := None |}
            (getChatModelInfo "v0-1.5-md" "md" 128000 64000 true)
            [ {| msg_role := User; msg_content := Text "hi" |} ]
            {| modelOptions := None; tools := None; toolMode := None |}
            never_cancelled
            {| apiKey := "key"; baseURL := "https://api.v0.dev/v1" |}
            (Yield (text_chunk "par") (Fail (NonError Cyclic)))
            [ {| index := 0; part := LanguageModelTextPart "par" |} ]
            Cyclic _ eq_refl _ eq_refl eq_refl eq_refl).
  discriminate.
Defined.

(* ================================================================== *)
(** ** The translator on a message with tool calls and tool results *)

(** Without a tool call the tool results each become a tool message. *)
Example translate_tool_results :
  translate JSON.stringify
    [ {| msg_role := User;
         msg_content :=
           Parts [ LanguageModelToolResultPart "c0"
                     [ {| item_value := Some "r1" |};
                       {| item_value := None |};
                       {| item_value := Some "r2" |} ];
                   LanguageModelTextPart "ignored";
                   LanguageModelToolResultPart "c1" [] ] |} ]
  = [ {| role := tool; content := "r1" ++ LF ++ "r2";
         tool_call_id := Some "c0"; tool_calls := None |};
      {| role := tool; content := "";
         tool_call_id := Some "c1"; tool_calls := None |} ].
Proof. reflexivity. Qed.

Lemma translate_tool_calls_win_witness :
  translate JSON.stringify
    ([] ++ {| msg_role := User;
              msg_content :=
                Parts [ LanguageModelTextPart "a";
                        LanguageModelToolCallPart "c1" "f"
                          (JSON.Object [("k", JSON.Bool true)]);
                        LanguageModelToolResultPart "c0"
                          [ {| item_value := Some "r" |} ];
                        LanguageModelTextPart "b" ] |} :: [])
  = translate JSON.stringify []
    ++ [ {| role := assistant;
            content := "ab";
            tool_call_id := None;
            tool_calls :=
              Some [ {| otc_id := Some "c1";
                        otc_type := "function";
                        otc_function :=
                          {| fc_name := Some "f";
                             fc_arguments :=
                               Some ("{" ++ JS.DQ ++ "k" ++ JS.DQ
                                     ++ ":true}")%string |} |} ] |} ]
    ++ translate JSON.stringify [].
Proof.
  refine (proj1 (translate_tool_calls_win
                   JSON.stringify []
                   {| msg_role := User;
                      msg_content :=
                        Parts [ LanguageModelTextPart "a";
                                LanguageModelToolCallPart "c1" "f"
                                  (JSON.Object [("k", JSON.Bool true)]);
                                LanguageModelToolResultPart "c0"
                                  [ {| item_value := Some "r" |} ];
                                LanguageModelTextPart "b" ] |}
                   [] _ eq_refl _ _)).
  - exists "c1", "f", (JSON.Object [("k", JSON.Bool true)]).
    simpl. right. left. reflexivity.
  - exists "c0", [ {| item_value := Some "r" |} ].
    simpl. right. right. left. reflexivity.
Defined.

(* ================================================================== *)
(** * Further properties *)

(** ** The message translator *)

Lemma filter_nothing {A : Type} (f : A -> bool) (l : list A) :
  (forall x, In x l -> f x = false) -> filter f l = [].
Proof.
  intro H. apply filter_none. apply Forall_forall. exact H.
Qed.

Lemma toolCalls_of_none parts :
  (forall p, In p parts -> is_tool_call_part p = false) ->
  toolCalls_of parts = [].
Proof. apply filter_nothing. Qed.

Lemma toolResults_of_results parts :
  (forall p, In p parts -> is_tool_call_part p = false) ->
  toolResults_of parts = filter is_tool_result_part parts.
Proof.
  intro H. unfold toolResults_of. apply filter_ext_in.
  intros p Hp. specialize (H p Hp).
  destruct p; [reflexivity | discriminate H | reflexivity].
Qed.

Lemma tool_messages_of_results (JSON_stringify : JSON.value -> string) parts :
  map (fun tr =>
         {| role := tool;
            content := tool_result_content JSON_stringify tr;
            tool_call_id := callId_of tr;
            tool_calls := None |}) (filter is_tool_result_part parts)
  = filter_map tool_message_of parts.
Proof.
  induction parts as [|p rest IH]; [reflexivity|].
  destruct p; cbn [filter is_tool_result_part filter_map tool_message_of map];
    try exact IH.
  now rewrite IH.
Qed.

(** X1. A message whose parts hold no tool call and at least one tool
    result becomes one tool message per tool result, in order: each carries
    the result's call id and the values of the result's items joined by
    newlines; the text parts of such a message are not sent. *)
Theorem tool_results_become_tool_messages
        (JSON_stringify : JSON.value -> string) msg parts :
  msg_content msg = Parts parts ->
  (forall p, In p parts -> is_tool_call_part p = false) ->
  (exists c items, In (LanguageModelToolResultPart c items) parts) ->
  translate_message JSON_stringify msg = filter_map tool_message_of parts
  /\ List.length (translate_message JSON_stringify msg)
     = List.length (filter is_tool_result_part parts).
Proof.
  intros H NC (c & items & Hin).
  assert (E : translate_message JSON_stringify msg
              = filter_map tool_message_of parts).
  { unfold translate_message. rewrite H.
    rewrite (toolCalls_of_none parts NC), (toolResults_of_results parts NC).
    assert (I : In (LanguageModelToolResultPart c items)
                   (filter is_tool_result_part parts))
      by (apply filter_In; split; [exact Hin | reflexivity]).
    assert (N : (0 <? List.length (filter is_tool_result_part parts))%nat
                = true)
      by (destruct (filter is_tool_result_part parts); [destruct I|];
          reflexivity).
    rewrite N. cbn [List.length Nat.ltb Nat.leb].
    apply tool_messages_of_results. }
  split; [exact E|].
  rewrite E, <- (tool_messages_of_results JSON_stringify).
  apply length_map.
Qed.

Lemma tool_results_become_tool_messages_witness :
  translate_message JSON.stringify
    {| msg_role := User;
       msg_content :=
         Parts [ LanguageModelTextPart "dropped";
                 LanguageModelToolResultPart "c0"
                   [ {| item_value := Some "a" |};
                     {| item_value := Some "b" |} ];
                 LanguageModelToolResultPart "c1" [] ] |}
  = filter_map tool_message_of
      [ LanguageModelTextPart "dropped";
        LanguageModelToolResultPart "c0"
          [ {| item_value := Some "a" |}; {| item_value := Some "b" |} ];
        LanguageModelToolResultPart "c1" [] ].
Proof.
  refine (proj1 (tool_results_become_tool_messages
                   JSON.stringify
                   {| msg_role := User;
                      msg_content :=
                        Parts [ LanguageModelTextPart "dropped";
                                LanguageModelToolResultPart "c0"
                                  [ {| item_value := Some "a" |};
                                    {| item_value := Some "b" |} ];
                                LanguageModelToolResultPart "c1" [] ] |}
                   _ eq_refl _ _)).
  - intros p [<-|[<-|[<-|[]]]]; reflexivity.
  - exists "c1", []. simpl. right. right. left. reflexivity.
Defined.

(** X2. A message whose parts are all text parts becomes one message with
    the mapped role and the text parts concatenated (not trimmed), or no
    message at all when the concatenation is empty or white space only; an
    empty array of parts gives no message. *)
Theorem text_parts_become_one_message
        (JSON_stringify : JSON.value -> string) msg parts :
  msg_content msg = Parts parts ->
  (forall p, In p parts -> exists v, p = LanguageModelTextPart v) ->
  translate_message JSON_stringify msg
  = if whitespace_only (String.concat "" (filter_map as_text_part parts))
    then []
    else [ {| role := convertRole (msg_role msg);
              content := String.concat "" (filter_map as_text_part parts);
              tool_call_id := None;
              tool_calls := None |} ].
Proof.
  intros H T.
  assert (NC : forall p, In p parts -> is_tool_call_part p = false)
    by (intros p Hp; destruct (T p Hp) as [v ->]; reflexivity).
  unfold translate_message. rewrite H.
  rewrite (toolCalls_of_none parts NC), (toolResults_of_results parts NC).
  rewrite (filter_nothing is_tool_result_part parts)
    by (intros p Hp; destruct (T p Hp) as [v ->]; reflexivity).
  change (0 <? List.length (@nil ContentPart))%nat with false. cbv iota.
  rewrite trim_length_positive. unfold textParts_of.
  change (JS.join "" (filter_map as_text_part parts))
    with (String.concat "" (filter_map as_text_part parts)).
  destruct (whitespace_only _); reflexivity.
Qed.

Lemma text_parts_become_one_message_witness :
  translate_message JSON.stringify
    {| msg_role := Assistant;
       msg_content := Parts [ LanguageModelTextPart " a";
                              LanguageModelTextPart "b " ] |}
  = [ {| role := assistant; content := " ab ";
         tool_call_id := None; tool_calls := None |} ].
Proof.
  refine (text_parts_become_one_message
            JSON.stringify
            {| msg_role := Assistant;
               msg_content := Parts [ LanguageModelTextPart " a";
                                      LanguageModelTextPart "b " ] |}
            _ eq_refl _).
  intros p [<-|[<-|[]]]; eexists; reflexivity.
Defined.

(** X3. A conversation of plain text messages is translated message by
    message, in order: the messages that are empty or white space only are
    left out, every other message is sent with its mapped role and its text
    unchanged. *)
Theorem text_conversation_translated
        (JSON_stringify : JSON.value -> string) messages :
  Forall (fun msg => exists t, msg_content msg = Text t) messages ->
  translate JSON_stringify messages = filter_map text_message_of messages.
Proof.
  intro H. rewrite translate_flat_map.
  induction H as [|msg rest [t Ht] _ IH]; [reflexivity|].
  cbn [flat_map filter_map]. rewrite IH.
  rewrite (translate_message_text JSON_stringify msg t Ht).
  unfold text_message_of. rewrite Ht.
  destruct (whitespace_only t); reflexivity.
Qed.

Lemma text_conversation_translated_witness :
  translate JSON.stringify
    [ {| msg_role := System; msg_content := Text "be brief" |};
      {| msg_role := User; msg_content := Text "" |};
      {| msg_role := Assistant; msg_content := Text "ok" |} ]
  = filter_map text_message_of
      [ {| msg_role := System; msg_content := Text "be brief" |};
        {| msg_role := User; msg_content := Text "" |};
        {| msg_role := Assistant; msg_content := Text "ok" |} ].
Proof.
  apply text_conversation_translated.
  repeat constructor; eexists; reflexivity.
Defined.

(** X4. The translation of a conversation is the translation of its first
    part followed by the translation of the rest: what a message contributes
    does not depend on the messages around it. *)
Theorem translate_app (JSON_stringify : JSON.value -> string) before after :
  translate JSON_stringify (before ++ after)
  = translate JSON_stringify before ++ translate JSON_stringify after.
Proof. rewrite !translate_flat_map. apply flat_map_app. Qed.

Lemma convertRole_not_system r : convertRole r <> system.
Proof. destruct r; discriminate. Qed.

Lemma convertRole_not_tool r : convertRole r <> tool.
Proof. destruct r; discriminate. Qed.

Lemma toolResults_have_callId parts tr :
  In tr (toolResults_of parts) -> exists c, callId_of tr = Some c.
Proof.
  unfold toolResults_of. intro H. apply filter_In in H. destruct H as [_ H].
  destruct tr; [discriminate H | eexists; reflexivity | eexists; reflexivity].
Qed.

Lemma Forall_flat_map {A B : Type} (P : B -> Prop) (f : A -> list B) l :
  (forall x, Forall P (f x)) -> Forall P (flat_map f l).
Proof.
  intro H. induction l as [|x rest IH]; simpl; [constructor|].
  apply Forall_app. split; [apply H | exact IH].
Qed.

(** X5. No message is ever sent with the role system: a System message is
    sent as a user message. *)
Theorem translate_never_system
        (JSON_stringify : JSON.value -> string) messages :
  Forall (fun m => role m <> system) (translate JSON_stringify messages).
Proof.
  rewrite translate_flat_map. apply Forall_flat_map. intro msg.
  unfold translate_message.
  destruct (msg_content msg) as [s|parts].
  - destruct (0 <? String.length (JS.trim (JS.or_else s "")))%nat;
      repeat constructor. apply convertRole_not_system.
  - destruct (0 <? List.length (toolCalls_of parts))%nat.
    + repeat constructor. discriminate.
    + destruct (0 <? List.length (toolResults_of parts))%nat.
      * apply Forall_forall. intros m Hm. apply in_map_iff in Hm.
        destruct Hm as (tr & <- & _). discriminate.
      * destruct (0 <? String.length (JS.trim (textParts_of parts)))%nat;
          repeat constructor. apply convertRole_not_system.
Qed.

(** X6. The messages sent are well formed: only a tool message can carry a
    [tool_call_id]; [tool_calls] is carried only by an assistant message and
    then holds at least one entry, each of the type function, and never comes
    with the role tool; every other message has text that is not empty or
    white space only. *)
Theorem translate_well_formed
        (JSON_stringify : JSON.value -> string) messages :
  Forall well_formed_message (translate JSON_stringify messages).
Proof.
  rewrite translate_flat_map. apply Forall_flat_map. intro msg.
  assert (Plain : forall r c,
             (0 <? String.length (JS.trim c))%nat = true ->
             well_formed_message
               {| role := convertRole r; content := c;
                  tool_call_id := None; tool_calls := None |}).
  { intros r c T. unfold well_formed_message; cbn.
    split; [congruence|]. split; [reflexivity|]. split; [discriminate|].
    intros _ _. rewrite trim_length_positive in T.
    now destruct (whitespace_only c). }
  unfold translate_message.
  destruct (msg_content msg) as [s|parts].
  - rewrite or_else_empty.
    destruct (0 <? String.length (JS.trim s))%nat eqn:T;
      [constructor; [now apply Plain | constructor] | constructor].
  - destruct (0 <? List.length (toolCalls_of parts))%nat eqn:TC.
    + constructor; [|constructor]. unfold well_formed_message; cbn.
      split; [congruence|]. split; [discriminate|]. split; [|discriminate].
      intros calls E. injection E as <-. split; [reflexivity|]. split.
      * destruct (toolCalls_of parts); [discriminate TC | discriminate].
      * apply Forall_forall. intros e He. apply in_map_iff in He.
        destruct He as (tc & <- & _). reflexivity.
    + destruct (0 <? List.length (toolResults_of parts))%nat.
      * apply Forall_forall. intros m Hm. apply in_map_iff in Hm.
        destruct Hm as (tr & <- & Htr). unfold well_formed_message; cbn.
        split; [reflexivity|]. split; [reflexivity|].
        split; [discriminate | congruence].
      * destruct (0 <? String.length (JS.trim (textParts_of parts)))%nat
          eqn:T;
          [constructor; [now apply Plain | constructor] | constructor].
Qed.

(* ================================================================== *)
(** ** The request builder *)

(** X7. Whatever temperature is requested, the temperature sent lies
    between 0 and 2. *)
Theorem temperature_in_range model openaiMessages options :
  (0 <= rp_temperature (requestParams model openaiMessages options))%Q
  /\ (rp_temperature (requestParams model openaiMessages options) <= 2)%Q.
Proof.
  rewrite requestParams_temperature. unfold baseParams; cbn [rp_temperature].
  split.
  - apply Q.le_max_l.
  - apply Q.max_lub; [discriminate | apply Q.le_min_l].
Qed.

(** X8. The token budget sent never exceeds the model's output limit, and
    it is positive whenever the model's limit is positive and the requested
    budget is not negative: a requested budget of 0 is never sent. *)
Theorem max_tokens_bounds model openaiMessages options :
  max_tokens (requestParams model openaiMessages options)
  <= maxOutputTokens model
  /\ (0 < maxOutputTokens model ->
      match requested_maxTokens options with
      | Some v => 0 <= v
      | None => True
      end ->
      0 < max_tokens (requestParams model openaiMessages options)).
Proof.
  rewrite requestParams_max_tokens. unfold baseParams; cbn [max_tokens].
  split; [apply Z.le_min_r|].
  intros M R. unfold Z_or_else.
  destruct (requested_maxTokens options) as [v|]; [|lia].
  destruct (Z.eqb_spec v 0); lia.
Qed.

(** X9. The tools are attached exactly when the model supports tool calling
    and the options hold at least one tool; [tool_choice] is then present
    too, [required] for tool mode 2 and [auto] otherwise, and the tools sent
    are the offered ones, in order, as functions with the same names and
    descriptions.  Otherwise neither [tools] nor [tool_choice] is sent. *)
Theorem tools_attached model openaiMessages options :
  match tools options with
  | Some (t :: ts) =>
      if supports_toolCalling model then
        rp_tools (requestParams model openaiMessages options)
        = Some (map openaiTool_of (t :: ts))
        /\ map ot_name (map openaiTool_of (t :: ts)) = map tool_name (t :: ts)
        /\ map ot_description (map openaiTool_of (t :: ts))
           = map tool_description (t :: ts)
        /\ Forall (fun o => ot_type o = "function")
                  (map openaiTool_of (t :: ts))
        /\ tool_choice (requestParams model openaiMessages options)
           = Some (match toolMode options with
                   | Some 2 => "required"
                   | _ => "auto"
                   end)
      else rp_tools (requestParams model openaiMessages options) = None
           /\ tool_choice (requestParams model openaiMessages options) = None
  | _ => rp_tools (requestParams model openaiMessages options) = None
         /\ tool_choice (requestParams model openaiMessages options) = None
  end.
Proof.
  unfold requestParams.
  destruct (tools options) as [[|t ts]|].
  - rewrite andb_false_r. split; reflexivity.
  - destruct (supports_toolCalling model); cbn [andb List.length Nat.ltb Nat.leb].
    + split; [reflexivity|]. split; [now rewrite map_map|].
      split; [now rewrite map_map|]. split; [|reflexivity].
      apply Forall_forall. intros o Ho. apply in_map_iff in Ho.
      destruct Ho as (x & <- & _). reflexivity.
    + split; reflexivity.
  - split; reflexivity.
Qed.

(* ================================================================== *)
(** ** The stream reassembler *)

(** X10. The data tracked for a tool index depends only on the fragments
    delivered for that index, in their order: the id and the name are the
    last non-empty ones (a later id overwrites an earlier one), the
    arguments are all argument texts concatenated (never replaced); an index
    without fragments is not tracked.  A fragment without an index counts
    for index 0. *)
Theorem pending_call_accumulated i chunks :
  lookup i (tracked chunks)
  = match filter (fun tc => match tc_index tc with
                            | Some k => k =? i
                            | None => 0 =? i
                            end) (flat_map toolCalls_in chunks) with
    | [] => None
    | frags =>
        Some {| id := last_truthy (map tc_id frags);
                name := last_truthy (map function_name frags);
                arguments :=
                  String.concat "" (filter_map function_arguments frags) |}
    end.
Proof.
  rewrite lookup_tracked. unfold pending, fragments_at.
  replace (filter (fun tc => toolIndex_of tc =? i)
                  (flat_map toolCalls_in chunks))
    with (filter (fun tc => match tc_index tc with
                            | Some k => k =? i
                            | None => 0 =? i
                            end) (flat_map toolCalls_in chunks)).
  - now destruct (filter _ _).
  - apply filter_ext. intro tc. unfold toolIndex_of.
    now destruct (tc_index tc).
Qed.

(** X11. A stream that finishes with a reason other than [tool_calls]
    (stop, length, ...) reports the text of its chunks and nothing else: the
    tool calls tracked so far are not reported, whether complete or not. *)
Theorem other_finish_reports_text_only
        (JSON_parse : string -> option JSON.value)
        token pre fin rest reason :
  Forall (fun c => has_finish c = false) pre ->
  finish_reason_of fin = Some reason ->
  JS.truthy reason = true ->
  reason <> "tool_calls" ->
  polls_clear token (S (List.length pre)) = true ->
  consume JSON_parse token 0 [] (prepend pre (Yield fin rest))
  = (text_fragments (pre ++ [fin]), inr (tracked pre)).
Proof.
  intros F R T N P. rewrite polls_clear_spec in P.
  rewrite consume_prepend; [| exact F | intros k Hk; apply P; lia].
  rewrite (consume_finish _ _ _ _ _ _ reason);
    [| apply P; simpl; lia | exact R | exact T].
  apply String.eqb_neq in N. rewrite N. simpl.
  now rewrite text_fragments_app, text_fragments_one, app_nil_r.
Qed.

Lemma other_finish_reports_text_only_witness :
  consume JSON.parse never_cancelled 0 []
    (prepend [ tool_chunk (Some 0) (Some "x") (Some "f") (Some "{}");
               text_chunk "done" ]
             (Yield (finish_chunk "stop") Done))
  = (text_fragments
       ([ tool_chunk (Some 0) (Some "x") (Some "f") (Some "{}");
          text_chunk "done" ] ++ [finish_chunk "stop"]),
     inr (tracked [ tool_chunk (Some 0) (Some "x") (Some "f") (Some "{}");
                    text_chunk "done" ])).
Proof.
  refine (other_finish_reports_text_only
            JSON.parse never_cancelled
            [ tool_chunk (Some 0) (Some "x") (Some "f") (Some "{}");
              text_chunk "done" ]
            (finish_chunk "stop") Done "stop" _ eq_refl eq_refl _ eq_refl).
  - repeat constructor.
  - discriminate.
Defined.

Lemma report_content_text_of chunk :
  reported (report_content chunk)
  = match text_of chunk with
    | Some t => [ {| index := 0; part := LanguageModelTextPart t |} ]
    | None => []
    end.
Proof.
  unfold report_content, delta_of, choice_of, text_of.
  destruct (choices chunk) as [[|c cs]|]; try reflexivity.
  destruct (delta c) as [d|]; [|reflexivity].
  destruct (delta_content d) as [[|a r]|]; reflexivity.
Qed.

Lemma text_fragments_text_of chunks :
  text_fragments chunks
  = map (fun t => {| index := 0; part := LanguageModelTextPart t |})
        (filter_map text_of chunks).
Proof.
  unfold text_fragments.
  induction chunks as [|c rest IH]; [reflexivity|].
  cbn [flat_map filter_map]. rewrite IH, report_content_text_of.
  destruct (text_of c); reflexivity.
Qed.

(** X12. A stream that ends without a finish reason reports exactly the
    non-empty texts of its deltas, in the order of arrival, each as a text
    part at index 0, and returns normally; the tool calls tracked are never
    reported. *)
Theorem unfinished_stream_reports_text
        (JSON_parse : string -> option JSON.value) token pre :
  Forall (fun c => has_finish c = false) pre ->
  polls_clear token (List.length pre) = true ->
  consume JSON_parse token 0 [] (prepend pre Done)
  = (map (fun t => {| index := 0; part := LanguageModelTextPart t |})
         (filter_map text_of pre),
     inr (tracked pre)).
Proof.
  intros F P. rewrite consume_unfinished; [| exact F | exact P].
  now rewrite text_fragments_text_of.
Qed.

Lemma unfinished_stream_reports_text_witness :
  consume JSON.parse never_cancelled 0 []
    (prepend [ text_chunk "a";
               tool_chunk (Some 0) (Some "x") (Some "f") (Some "{}");
               text_chunk "";
               text_chunk "b" ] Done)
  = ([ {| index := 0; part := LanguageModelTextPart "a" |};
       {| index := 0; part := LanguageModelTextPart "b" |} ],
     inr (tracked [ text_chunk "a";
                    tool_chunk (Some 0) (Some "x") (Some "f") (Some "{}");
                    text_chunk "";
                    text_chunk "b" ])).
Proof.
  refine (unfinished_stream_reports_text
            JSON.parse never_cancelled
            [ text_chunk "a";
              tool_chunk (Some 0) (Some "x") (Some "f") (Some "{}");
              text_chunk "";
              text_chunk "b" ] _ eq_refl).
  repeat constructor.
Defined.

Lemma consume_rest_irrelevant
      (JSON_parse : string -> option JSON.value) token fin rest rest' :
  has_finish fin = true ->
  forall pre n t,
    consume JSON_parse token n t (prepend pre (Yield fin rest))
    = consume JSON_parse token n t (prepend pre (Yield fin rest')).
Proof.
  intros H pre. induction pre as [|c pre' IH]; intros n t.
  - cbn [prepend consume].
    destruct (isCancellationRequested token (S n)); [reflexivity|].
    unfold has_finish, JS.truthy_opt in H.
    destruct (finish_reason_of fin) as [reason|]; [|discriminate H].
    now rewrite H.
  - cbn [prepend consume].
    destruct (isCancellationRequested token (S n)); [reflexivity|].
    destruct (finish_reason_of c) as [reason|];
      [destruct (JS.truthy reason); [reflexivity|]|];
      now rewrite IH.
Qed.

(** X13. Nothing that follows a chunk with a finish reason matters: the
    fragments reported, the tool calls tracked and the way the loop ends are
    the same whatever the stream yields after that chunk, even an error. *)
Theorem chunks_after_finish_ignored
        (JSON_parse : string -> option JSON.value)
        token pre fin rest rest' :
  has_finish fin = true ->
  consume JSON_parse token 0 [] (prepend pre (Yield fin rest))
  = consume JSON_parse token 0 [] (prepend pre (Yield fin rest')).
Proof. intro H. now apply consume_rest_irrelevant. Qed.

Lemma chunks_after_finish_ignored_witness :
  consume JSON.parse never_cancelled 0 []
    (prepend [ text_chunk "a" ]
             (Yield (finish_chunk "stop")
                    (Fail (NonError (Data (JSON.Str "late"))))))
  = consume JSON.parse never_cancelled 0 []
      (prepend [ text_chunk "a" ] (Yield (finish_chunk "stop") Done)).
Proof.
  exact (chunks_after_finish_ignored
           JSON.parse never_cancelled [ text_chunk "a" ]
           (finish_chunk "stop")
           (Fail (NonError (Data (JSON.Str "late")))) Done eq_refl).
Defined.

Section FinishCounting.

Variable JSON_parse : string -> option JSON.value.

Lemma tool_call_report_complete k d :
  is_defined (tool_call_report JSON_parse (k, d)) = complete d.
Proof.
  unfold tool_call_report, complete.
  destruct (id d) as [[|a i]|]; try reflexivity;
    destruct (name d) as [[|b n]|]; try reflexivity;
    destruct (arguments d) as [|c r]; try reflexivity.
  cbn. now destruct (JSON_parse (String c r)).
Qed.

Lemma reports_length entries :
  List.length (filter_map (tool_call_report JSON_parse) entries)
  = List.length (filter (fun e => complete (snd e)) entries).
Proof.
  induction entries as [|[k d] rest IH]; [reflexivity|].
  cbn [filter_map filter snd].
  rewrite <- (tool_call_report_complete k d).
  destruct (tool_call_report JSON_parse (k, d)); cbn; now rewrite IH.
Qed.

Lemma reports_NoDup entries :
  Forall (fun e => decimal_key (fst e) = true) entries ->
  NoDup (map fst entries) ->
  NoDup (map index (filter_map (tool_call_report JSON_parse) entries)).
Proof.
  induction 1 as [|[k d] rest D Drest IH]; intro ND; [constructor|].
  inversion ND as [|? ? Hk ND']; subst. cbn [fst] in D.
  cbn [filter_map].
  destruct (tool_call_report JSON_parse (k, d)) as [e|] eqn:E;
    [|now apply IH].
  cbn [map]. constructor; [|now apply IH].
  rewrite (tool_call_report_index _ _ _ _ D E).
  intro H. apply Hk. apply in_map_iff in H. destruct H as (e' & <- & He').
  destruct (reports_index_in_keys JSON_parse rest e' Drest He') as [d' I].
  apply in_map_iff. now exists (index e', d').
Qed.

End FinishCounting.

(** X14. At the [tool_calls] finish every tracked tool call that has its
    id, its name and its arguments is resolved exactly once: the fragments
    reported at the finish are as many as the complete tracked calls, and,
    when the tool indices of the stream are below 10^21 in absolute value, no
    two of them carry the same index and each carries a tracked index. *)
Theorem finish_resolves_each_call_once
        (JSON_parse : string -> option JSON.value)
        token pre fin rest :
  Forall (fun c => has_finish c = false) pre ->
  finish_reason_of fin = Some "tool_calls" ->
  polls_clear token (S (List.length pre)) = true ->
  exists finals,
    reported (consume JSON_parse token 0 [] (prepend pre (Yield fin rest)))
    = text_fragments (pre ++ [fin]) ++ finals
    /\ List.length finals
       = List.length (filter (fun e => complete (snd e)) (tracked pre))
    /\ (Forall (fun tc => decimal_key (toolIndex_of tc) = true)
               (flat_map toolCalls_in pre) ->
        NoDup (map index finals)
        /\ forall e, In e finals -> In (index e) (map fst (tracked pre))).
Proof.
  intros F R P.
  rewrite (consume_tool_calls_finish JSON_parse token pre fin rest F R P).
  unfold reported; cbn [fst].
  eexists. split; [reflexivity|].
  pose proof (Object_entries_perm (tracked pre)) as Perm.
  split.
  - rewrite reports_length.
    apply Permutation_length, Permutation_sym, filter_perm. exact Perm.
  - intro D. pose proof (tracked_decimal pre D) as De. split.
    + apply reports_NoDup; [exact De|].
      apply (Permutation_NoDup (Permutation_map fst Perm)).
      apply NoDup_keys_tracked.
    + intros e He.
      destruct (reports_index_in_keys JSON_parse _ e De He) as [d I].
      apply (Permutation_in _ (Permutation_map fst (Permutation_sym Perm))).
      apply in_map_iff. now exists (index e, d).
Qed.

Lemma finish_resolves_each_call_once_witness :
  exists finals,
    reported
      (consume JSON.parse never_cancelled 0 []
         (prepend [ tool_chunk (Some 1) (Some "y") (Some "g") (Some "{}");
                    tool_chunk (Some 0) (Some "x") None (Some "{}");
                    tool_chunk (Some 1) None None (Some " ") ]
                  (Yield (finish_chunk "tool_calls") Done)))
    = text_fragments ([ tool_chunk (Some 1) (Some "y") (Some "g") (Some "{}");
                    tool_chunk (Some 0) (Some "x") None (Some "{}");
                    tool_chunk (Some 1) None None (Some " ") ] ++ [finish_chunk "tool_calls"]) ++ finals
    /\ List.length finals
       = List.length (filter (fun e => complete (snd e)) (tracked [ tool_chunk (Some 1) (Some "y") (Some "g") (Some "{}");
                    tool_chunk (Some 0) (Some "x") None (Some "{}");
                    tool_chunk (Some 1) None None (Some " ") ]))
    /\ (Forall (fun tc => decimal_key (toolIndex_of tc) = true)
               (flat_map toolCalls_in [ tool_chunk (Some 1) (Some "y") (Some "g") (Some "{}");
                    tool_chunk (Some 0) (Some "x") None (Some "{}");
                    tool_chunk (Some 1) None None (Some " ") ]) ->
        NoDup (map index finals)
        /\ forall e, In e finals -> In (index e) (map fst (tracked [ tool_chunk (Some 1) (Some "y") (Some "g") (Some "{}");
                    tool_chunk (Some 0) (Some "x") None (Some "{}");
                    tool_chunk (Some 1) None None (Some " ") ]))).
Proof.
  refine (finish_resolves_each_call_once
            JSON.parse never_cancelled [ tool_chunk (Some 1) (Some "y") (Some "g") (Some "{}");
                    tool_chunk (Some 0) (Some "x") None (Some "{}");
                    tool_chunk (Some 1) None None (Some " ") ]
            (finish_chunk "tool_calls") Done _ eq_refl eq_refl).
  repeat constructor.
Defined.

(** X15. The indices tracked are exactly the indices of the fragments
    delivered: every fragment opens or extends the entry of its index, and
    no entry exists without a fragment. *)
Theorem tracked_indices k chunks :
  In k (map fst (tracked chunks))
  <-> exists tc, In tc (flat_map toolCalls_in chunks) /\ toolIndex_of tc = k.
Proof.
  split.
  - apply tracked_key_is_fragment_index.
  - intros (tc & I & E).
    destruct (lookup k (tracked chunks)) eqn:L.
    + apply lookup_In in L. apply in_map_iff. now exists (k, t).
    + exfalso. rewrite lookup_tracked in L. unfold pending, fragments_at in L.
      assert (J : In tc (filter (fun tc => toolIndex_of tc =? k)
                                (flat_map toolCalls_in chunks)))
        by (apply filter_In; split; [exact I | now apply Z.eqb_eq]).
      destruct (filter _ _); [destruct J | discriminate L].
Qed.

(** X16. A chunk without choices (absent or empty [choices]) changes
    nothing: no fragment is reported for it and no tool call is tracked; it
    only counts as one more poll of the cancellation token. *)
Theorem empty_chunk_skipped
        (JSON_parse : string -> option JSON.value)
        token n t chunk rest :
  (choices chunk = None \/ choices chunk = Some []) ->
  isCancellationRequested token (S n) = false ->
  consume JSON_parse token n t (Yield chunk rest)
  = consume JSON_parse token (S n) t rest.
Proof.
  intros E C.
  rewrite consume_streaming; [| exact C |].
  - unfold report_content, track_delta, delta_of, choice_of, reported.
    destruct E as [-> | ->]; cbn;
      now destruct (consume JSON_parse token (S n) t rest).
  - unfold has_finish, finish_reason_of, choice_of.
    destruct E as [-> | ->]; reflexivity.
Qed.

Lemma empty_chunk_skipped_witness :
  consume JSON.parse never_cancelled 0 []
    (Yield {| choices := Some [] |} (Yield (text_chunk "a") Done))
  = consume JSON.parse never_cancelled 1 [] (Yield (text_chunk "a") Done).
Proof.
  exact (empty_chunk_skipped
           JSON.parse never_cancelled 0 [] {| choices := Some [] |}
           (Yield (text_chunk "a") Done) (or_intror eq_refl) eq_refl).
Defined.

(* ================================================================== *)
(** ** The credentialed client *)

Lemma strict_eq_eq a b : strict_eq a b = true -> a = b.
Proof.
  destruct a as [x|], b as [y|]; simpl; try discriminate; [|reflexivity].
  intro H. apply String.eqb_eq in H. now subst.
Qed.

Lemma strict_eq_refl a : strict_eq a a = true.
Proof. destruct a as [x|]; simpl; [apply String.eqb_refl | reflexivity]. Qed.

Lemma getApiKey_resolution env :
  getApiKey env
  = match V0_API_KEY env with
    | Some (String a r) => Some (String a r)
    | _ =>
        match config_apiKey env with
        | Some (String a r) => Some (String a r)
        | _ => None
        end
    end.
Proof.
  unfold getApiKey, JS.truthy_opt.
  destruct (V0_API_KEY env) as [[|a r]|];
    destruct (config_apiKey env) as [[|b s]|]; reflexivity.
Qed.

Lemma ensureClient_run_result env this :
  snd (ensureClient_run env this) = ensureClient env this.
Proof.
  unfold ensureClient_run, ensureClient.
  destruct (is_defined (client this)
            && strict_eq (lastApiKey this) (getApiKey env)
            && JS.truthy_opt (getApiKey env))%bool; [reflexivity|].
  destruct (getApiKey env) as [key|]; [|reflexivity].
  destruct (JS.truthy key); reflexivity.
Qed.

Lemma ensureClient_twice env this :
  ensureClient env (snd (ensureClient env this)) = ensureClient env this.
Proof.
  unfold ensureClient.
  destruct (getApiKey env) as [key|]; cbn [JS.truthy_opt].
  - destruct (JS.truthy key) eqn:T;
      destruct (client this) as [c|] eqn:C;
      destruct (strict_eq (lastApiKey this) (Some key)) eqn:E;
      cbn [is_defined andb fst snd client lastApiKey];
      rewrite ?C, ?E, ?T, ?strict_eq_refl;
      cbn [is_defined andb fst snd client lastApiKey strict_eq];
      rewrite ?T; reflexivity.
  - rewrite !andb_false_r. cbn. reflexivity.
Qed.

(** X17. The client is built at most once per key: a call constructs at
    most one client, and only when the cache holds no client or remembers
    another key; a second call in a row constructs none, returns the same
    client and leaves the provider as the first call left it. *)
Theorem ensureClient_idempotent env this :
  snd (ensureClient_run env this) = ensureClient env this
  /\ (List.length (fst (ensureClient_run env this)) <= 1)%nat
  /\ (fst (ensureClient_run env this) <> [] ->
      client this = None \/ lastApiKey this <> getApiKey env)
  /\ fst (ensureClient_run env (snd (ensureClient env this))) = []
  /\ ensureClient env (snd (ensureClient env this)) = ensureClient env this.
Proof.
  split; [apply ensureClient_run_result|].
  split; [|split; [|split; [|apply ensureClient_twice]]].
  - unfold ensureClient_run.
    destruct (is_defined (client this)
              && strict_eq (lastApiKey this) (getApiKey env)
              && JS.truthy_opt (getApiKey env))%bool; [cbn; lia|].
    destruct (getApiKey env) as [key|]; [|cbn; lia].
    destruct (JS.truthy key); cbn; lia.
  - unfold ensureClient_run.
    destruct (getApiKey env) as [key|] eqn:G; cbn [JS.truthy_opt].
    + destruct (JS.truthy key) eqn:T.
      * destruct (client this) as [c|]; [|now left].
        cbn [is_defined andb].
        destruct (strict_eq (lastApiKey this) (Some key)) eqn:E;
          cbn [andb fst].
        -- intro H. now elim H.
        -- intros _. right. intro H. rewrite H, strict_eq_refl in E.
           discriminate E.
      * rewrite !andb_false_r. cbn. intro H. now elim H.
    + rewrite !andb_false_r. cbn. intro H. now elim H.
  - unfold ensureClient_run, ensureClient.
    destruct (getApiKey env) as [key|] eqn:G; cbn [JS.truthy_opt].
    + destruct (JS.truthy key) eqn:T;
        destruct (client this) as [c|] eqn:C;
        destruct (strict_eq (lastApiKey this) (Some key)) eqn:E;
        cbn [is_defined andb fst snd client lastApiKey];
        rewrite ?C, ?E, ?T, ?strict_eq_refl;
        cbn [is_defined andb fst snd client lastApiKey strict_eq];
        rewrite ?T; reflexivity.
    + rewrite !andb_false_r. cbn. reflexivity.
Qed.

(** X18. The cache stays consistent: in a new provider, after a
    configuration change and after every request for the client, a cached
    client is one that was built for the remembered key with the v0.dev
    endpoint. *)
Theorem cache_consistent_invariant :
  cache_consistent new_provider
  /\ (forall affects this,
        cache_consistent this ->
        cache_consistent (onDidChangeConfiguration affects this))
  /\ (forall env this,
        cache_consistent this ->
        cache_consistent (snd (ensureClient env this))).
Proof.
  split; [exact I|]. split.
  - intros [|] this H; [exact I | exact H].
  - intros env this H. unfold ensureClient.
    destruct (is_defined (client this)
              && strict_eq (lastApiKey this) (getApiKey env)
              && JS.truthy_opt (getApiKey env))%bool; [exact H|].
    destruct (getApiKey env) as [key|]; [|exact I].
    destruct (JS.truthy key); [|exact I].
    split; reflexivity.
Qed.

(** X19. With a consistent cache the client handed out is always the one
    for the current key, never a stale one: the key is the environment
    variable when it is set and not empty, otherwise the setting when it is
    set and not empty; without such a key there is no client, and the cache
    is cleared. *)
Theorem ensureClient_current_key env this :
  cache_consistent this ->
  fst (ensureClient env this)
  = option_map (fun key => {| apiKey := key;
                              baseURL := "https://api.v0.dev/v1" |})
      (match V0_API_KEY env with
       | Some (String a r) => Some (String a r)
       | _ =>
           match config_apiKey env with
           | Some (String a r) => Some (String a r)
           | _ => None
           end
       end)
  /\ client (snd (ensureClient env this)) = fst (ensureClient env this)
  /\ (fst (ensureClient env this) = None ->
      snd (ensureClient env this) = new_provider).
Proof.
  intro H. rewrite <- getApiKey_resolution.
  assert (K : forall k, getApiKey env = Some k -> JS.truthy k = true).
  { intros k E. rewrite getApiKey_resolution in E.
    destruct (V0_API_KEY env) as [[|a r]|];
      destruct (config_apiKey env) as [[|b s]|];
      try discriminate E; injection E as <-; reflexivity. }
  unfold ensureClient, cache_consistent in *.
  destruct (getApiKey env) as [key|] eqn:G; cbn [JS.truthy_opt option_map].
  - rewrite (K key eq_refl).
    destruct (client this) as [c|] eqn:C; cbn [is_defined andb].
    + destruct (strict_eq (lastApiKey this) (Some key)) eqn:E;
        cbn [andb fst snd client].
      * apply strict_eq_eq in E. destruct H as [H1 H2].
        rewrite H1 in E. injection E as E.
        destruct c as [k u]; cbn in *. subst.
        split; [reflexivity|]. split; [exact C | discriminate].
      * split; [reflexivity|]. split; [reflexivity | discriminate].
    + cbn [fst snd client].
      split; [reflexivity|]. split; [reflexivity | discriminate].
  - rewrite !andb_false_r. cbn [fst snd client].
    split; [reflexivity|]. split; reflexivity.
Qed.

Lemma ensureClient_current_key_witness :
  fst (ensureClient
         {| V0_API_KEY := Some ""; config_apiKey := Some "new" |}
         {| client := Some {| apiKey := "old";
                              baseURL := "https://api.v0.dev/v1" |};
            lastApiKey := Some "old" |})
  = Some {| apiKey := "new"; baseURL := "https://api.v0.dev/v1" |}.
Proof.
  refine (proj1 (ensureClient_current_key
                   {| V0_API_KEY := Some ""; config_apiKey := Some "new" |}
                   {| client := Some {| apiKey := "old";
                                        baseURL := "https://api.v0.dev/v1" |};
                      lastApiKey := Some "old" |} _)).
  split; reflexivity.
Defined.

(* ================================================================== *)
(** ** The chat response as a whole *)

(** X20. When no message survives the translation (no messages at all, or
    only empty ones), the only thing reported is the text
    [Error: No valid messages to process.] and the call returns: the
    outcome is the same whatever the upstream would have answered. *)
Theorem no_valid_messages_reported
        (JSON_parse : string -> option JSON.value)
        (JSON_stringify : JSON.value -> string)
        (create : OpenAI -> ChatCompletionCreateParamsStreaming
                  -> Thrown + Stream)
        env this model messages options token :
  getApiKey env <> None ->
  translate JSON_stringify messages = [] ->
  fst (provideLanguageModelChatResponse
         JSON_parse JSON_stringify create
         env this model messages options token)
  = ([ {| index := 0;
          part := LanguageModelTextPart
                    "Error: No valid messages to process." |} ],
     inr tt).
Proof.
  intros K T.
  pose proof (ensureClient_none env this) as N.
  unfold provideLanguageModelChatResponse.
  destruct (ensureClient env this) as [[c|] this']; cbn [fst] in *.
  - rewrite exchange_caught, T. reflexivity.
  - exfalso. apply K. now apply N.
Qed.

Lemma no_valid_messages_reported_witness :
  fst (provideLanguageModelChatResponse
         JSON.parse JSON.stringify
         (fun _ _ => inr (Yield (text_chunk "never read") Done))
         {| V0_API_KEY := Some "key"; config_apiKey := None |}
         new_provider
         (getChatModelInfo "v0-1.5-md" "md" 128000 64000 true)
         [ {| msg_role := User; msg_content := Text "  " |};
           {| msg_role := User; msg_content := Parts [] |} ]
         {| modelOptions := None; tools := None; toolMode := None |}
         never_cancelled)
  = ([ {| index := 0;
          part := LanguageModelTextPart
                    "Error: No valid messages to process." |} ],
     inr tt).
Proof.
  refine (no_valid_messages_reported
            JSON.parse JSON.stringify
            (fun _ _ => inr (Yield (text_chunk "never read") Done))
            {| V0_API_KEY := Some "key"; config_apiKey := None |}
            new_provider
            (getChatModelInfo "v0-1.5-md" "md" 128000 64000 true)
            [ {| msg_role := User; msg_content := Text "  " |};
              {| msg_role := User; msg_content := Parts [] |} ]
            {| modelOptions := None; tools := None; toolMode := None |}
            never_cancelled _ eq_refl).
  discriminate.
Defined.

(** X21. When a key is found, some message survives the translation, the
    request succeeds and the loop over the stream ends without an error,
    what the call reports is exactly what the loop reported: nothing is
    added and the call returns. *)
Theorem successful_exchange_reports_the_stream
        (JSON_parse : string -> option JSON.value)
        (JSON_stringify : JSON.value -> string)
        (create : OpenAI -> ChatCompletionCreateParamsStreaming
                  -> Thrown + Stream)
        env this model messages options token client stream out t :
  fst (ensureClient env this) = Some client ->
  translate JSON_stringify messages <> [] ->
  create client
         (requestParams model (translate JSON_stringify messages) options)
  = inr stream ->
  consume JSON_parse token 0 [] stream = (out, inr t) ->
  fst (provideLanguageModelChatResponse
         JSON_parse JSON_stringify create
         env this model messages options token)
  = (out, inr tt).
Proof.
  intros C T R L.
  unfold provideLanguageModelChatResponse.
  destruct (ensureClient env this) as [[c|] this']; cbn [fst] in *;
    [|discriminate C].
  injection C as ->. rewrite exchange_caught.
  destruct (translate JSON_stringify messages) as [|m ms]; [congruence|].
  now rewrite R, L.
Qed.

Lemma successful_exchange_reports_the_stream_witness :
  fst (provideLanguageModelChatResponse
         JSON.parse JSON.stringify
         (fun _ _ => inr (Yield (text_chunk "hello")
                                (Yield (finish_chunk "stop") Done)))
         {| V0_API_KEY := Some "key"; config_apiKey := None |}
         new_provider
         (getChatModelInfo "v0-1.5-md" "md" 128000 64000 true)
         [ {| msg_role := User; msg_content := Text "hi" |} ]
         {| modelOptions := None; tools := None; toolMode := None |}
         never_cancelled)
  = ([ {| index := 0; part := LanguageModelTextPart "hello" |} ], inr tt).
Proof.
  refine (successful_exchange_reports_the_stream
            JSON.parse JSON.stringify
            (fun _ _ => inr (Yield (text_chunk "hello")
                                   (Yield (finish_chunk "stop") Done)))
            {| V0_API_KEY := Some "key"; config_apiKey := None |}
            new_provider
            (getChatModelInfo "v0-1.5-md" "md" 128000 64000 true)
            [ {| msg_role := User; msg_content := Text "hi" |} ]
            {| modelOptions := None; tools := None; toolMode := None |}
            never_cancelled
            {| apiKey := "key"; baseURL := "https://api.v0.dev/v1" |}
            (Yield (text_chunk "hello") (Yield (finish_chunk "stop") Done))
            [ {| index := 0; part := LanguageModelTextPart "hello" |} ]
            [] eq_refl _ eq_refl eq_refl).
  discriminate.
Defined.

(* ================================================================== *)
(** ** The error reporter *)

Lemma startsWith_app p r : JS.startsWith p (p ++ r)%string = true.
Proof.
  induction p as [|c p IH]; simpl; [reflexivity|].
  now rewrite Ascii.eqb_refl, IH.
Qed.

Lemma includes_unfold s sub :
  JS.includes s sub
  = (JS.startsWith sub s
     || match s with
        | EmptyString => false
        | String _ r => JS.includes r sub
        end)%bool.
Proof. destruct s; reflexivity. Qed.

Lemma includes_prefix p r : JS.includes (p ++ r)%string p = true.
Proof. rewrite includes_unfold. now rewrite startsWith_app. Qed.

Lemma includes_skip a s sub :
  JS.includes s sub = true -> JS.includes (a ++ s)%string sub = true.
Proof.
  intro H. induction a as [|c a IH]; [exact H|].
  change (String c a ++ s)%string with (String c (a ++ s)%string).
  rewrite includes_unfold, IH. apply orb_true_r.
Qed.

(** X22. For a thrown [Error] the [catch] block always gets to its text,
    which starts with [Error calling v0.dev API: ] and always holds the name
    of the error's class and the error's own message, also when the message
    is replaced by one of the more helpful ones; a status that the error
    carries is shown as well. *)
Theorem error_text_keeps_details
        (JSON_stringify : JSON.value -> string) e :
  error_text JSON_stringify (ErrorInstance e) = inr (error_instance_text e)
  /\ JS.startsWith "Error calling v0.dev API: " (error_instance_text e) = true
  /\ JS.includes (error_instance_text e)
                 ("- Error type: " ++ err_constructor_name e)%string = true
  /\ JS.includes (error_instance_text e)
                 ("- Message: " ++ err_message e)%string = true
  /\ forall status,
       err_status e = Some status ->
       JS.includes (error_instance_text e)
                   ("- HTTP Status: " ++ status)%string = true.
Proof.
  split; [reflexivity|]. split; [reflexivity|].
  unfold error_instance_text. split; [|split].
  - do 6 apply includes_skip.
    rewrite <- append_assoc. apply includes_prefix.
  - do 9 apply includes_skip.
    rewrite <- append_assoc. apply includes_prefix.
  - intros status E. rewrite E. unfold debug_line at 1.
    rewrite !append_assoc. do 12 apply includes_skip.
    exact (includes_prefix ("- HTTP Status: " ++ status)%string _).
Qed.

(* ================================================================== *)
(** ** [provideTokenCount] *)

Lemma join_empty_cons x xs :
  JS.join "" (x :: xs) = (x ++ JS.join "" xs)%string.
Proof.
  destruct xs; simpl; [now rewrite append_nil_r | reflexivity].
Qed.

Lemma flattened_parts parts :
  JS.join "" (map (fun part => match as_text_part part with
                               | Some v => v
                               | None => ""
                               end) parts)
  = JS.join "" (filter_map as_text_part parts).
Proof.
  induction parts as [|p rest IH]; [reflexivity|].
  cbn [map filter_map]. rewrite join_empty_cons, IH.
  destruct (as_text_part p); [now rewrite join_empty_cons | reflexivity].
Qed.

(** X23. When the tokenizer fails, the count is the length of the text
    divided by four, rounded up: four times the count covers the length with
    fewer than four characters to spare, and the count is 0 exactly for the
    empty text. *)
Theorem token_count_fallback
        (encode : string -> Thrown + list nat) text e :
  encode (flattened text) = inl e ->
  (String.length (flattened text) <= 4 * provideTokenCount encode text)%nat
  /\ (4 * provideTokenCount encode text < String.length (flattened text) + 4)%nat
  /\ (provideTokenCount encode text = 0%nat <-> flattened text = "").
Proof.
  intro E. unfold provideTokenCount. rewrite E. unfold ceil_div.
  set (n := String.length (flattened text)).
  pose proof (Nat.div_mod_eq n 4) as D.
  pose proof (Nat.mod_upper_bound n 4 ltac:(discriminate)) as U.
  assert (Z : n = 0%nat <-> flattened text = "").
  { subst n. destruct (flattened text); simpl; split;
      try reflexivity; discriminate. }
  destruct (Nat.eqb_spec (n mod 4) 0) as [M|M].
  - repeat split; try lia.
    + intro H. apply Z. lia.
    + intro H. apply Z in H. rewrite H. reflexivity.
  - repeat split; try lia.
    intro H. apply Z in H. rewrite H in M. now elim M.
Qed.

Lemma token_count_fallback_witness :
  (String.length (flattened (CountText "hello"))
   <= 4 * provideTokenCount
            (fun _ => inl (NonError (Data JSON.Null))) (CountText "hello"))%nat.
Proof.
  exact (proj1 (token_count_fallback
                  (fun _ => inl (NonError (Data JSON.Null))) (CountText "hello")
                  (NonError (Data JSON.Null)) eq_refl)).
Defined.

(** X24. The count of a message with parts is the count of its text parts
    concatenated: tool calls and tool results add nothing to it. *)
Theorem token_count_of_parts
        (encode : string -> Thrown + list nat) msg parts :
  msg_content msg = Parts parts ->
  provideTokenCount encode (CountMessage msg)
  = provideTokenCount encode
      (CountText (String.concat "" (filter_map as_text_part parts))).
Proof.
  intro H. unfold provideTokenCount, flattened. rewrite H.
  now rewrite flattened_parts.
Qed.

Lemma token_count_of_parts_witness :
  provideTokenCount (fun _ => inl (NonError (Data JSON.Null)))
    (CountMessage
       {| msg_role := Assistant;
          msg_content :=
            Parts [ LanguageModelTextPart "abc";
                    LanguageModelToolCallPart "c" "f" JSON.Null;
                    LanguageModelTextPart "de" ] |})
  = provideTokenCount (fun _ => inl (NonError (Data JSON.Null)))
      (CountText
         (String.concat ""
            (filter_map as_text_part
               [ LanguageModelTextPart "abc";
                 LanguageModelToolCallPart "c" "f" JSON.Null;
                 LanguageModelTextPart "de" ]))).
Proof.
  exact (token_count_of_parts
           (fun _ => inl (NonError (Data JSON.Null)))
           {| msg_role := Assistant;
              msg_content :=
                Parts [ LanguageModelTextPart "abc";
                        LanguageModelToolCallPart "c" "f" JSON.Null;
                        LanguageModelTextPart "de" ] |}
           [ LanguageModelTextPart "abc";
             LanguageModelToolCallPart "c" "f" JSON.Null;
             LanguageModelTextPart "de" ] eq_refl).
Defined.

(* ================================================================== *)
(** ** Failures that are reported *)

(** X25. A failure is turned into one reported text part, and the call
    returns, whenever the [catch] block gets to its text, which it does for
    every thrown [Error] and every thrown value that [JSON.stringify]
    accepts: a missing key reports the text about the API key and nothing
    else; an error thrown by the request reports its text alone; an error
    thrown by the stream reports its text after what the loop had
    reported. *)
Theorem chat_response_reports_failures
        (JSON_parse : string -> option JSON.value)
        (JSON_stringify : JSON.value -> string)
        (create : OpenAI -> ChatCompletionCreateParamsStreaming
                  -> Thrown + Stream)
        env this model messages options token :
  (getApiKey env = None ->
   fst (provideLanguageModelChatResponse
          JSON_parse JSON_stringify create
          env this model messages options token)
   = ([ {| index := 0;
           part := LanguageModelTextPart not_initialized_message |} ],
      inr tt))
  /\ (forall client e text,
        fst (ensureClient env this) = Some client ->
        translate JSON_stringify messages <> [] ->
        create client
               (requestParams model (translate JSON_stringify messages) options)
        = inl e ->
        error_text JSON_stringify e = inr text ->
        fst (provideLanguageModelChatResponse
               JSON_parse JSON_stringify create
               env this model messages options token)
        = ([ {| index := 0; part := LanguageModelTextPart text |} ], inr tt))
  /\ (forall client stream out e text,
        fst (ensureClient env this) = Some client ->
        translate JSON_stringify messages <> [] ->
        create client
               (requestParams model (translate JSON_stringify messages) options)
        = inr stream ->
        consume JSON_parse token 0 [] stream = (out, inl e) ->
        error_text JSON_stringify e = inr text ->
        fst (provideLanguageModelChatResponse
               JSON_parse JSON_stringify create
               env this model messages options token)
        = (out ++ [ {| index := 0; part := LanguageModelTextPart text |} ],
           inr tt))
  /\ (forall e,
        match e with
        | NonError (BigInt _) => False
        | NonError Cyclic => False
        | _ => True
        end ->
        exists text, error_text JSON_stringify e = inr text).
Proof.
  pose proof (ensureClient_none env this) as N.
  unfold provideLanguageModelChatResponse.
  split; [|split; [|split]].
  - intro K. apply N in K.
    destruct (ensureClient env this) as [[c|] this']; cbn [fst] in *;
      [discriminate K | reflexivity].
  - intros client e text C T R E.
    destruct (ensureClient env this) as [[c|] this']; cbn [fst] in *;
      [|discriminate C].
    injection C as ->. rewrite exchange_caught.
    destruct (translate JSON_stringify messages) as [|m ms]; [congruence|].
    rewrite R. unfold caught. now rewrite E.
  - intros client stream out e text C T R L E.
    destruct (ensureClient env this) as [[c|] this']; cbn [fst] in *;
      [|discriminate C].
    injection C as ->. rewrite exchange_caught.
    destruct (translate JSON_stringify messages) as [|m ms]; [congruence|].
    rewrite R, L. unfold caught. now rewrite E.
  - intros [e|[d| |n|]] H; try (now elim H); eexists; reflexivity.
Qed.
